(** * Space-Builder-Space: a shallow embedding of [app.py]

    The program is one Python class, [SpaceBuilder], with seven methods.  Two
    of them are pure string functions ([split_space_names],
    [file_as_a_string]); one is a pure comparison that records a message
    ([control_input_and_output_types]); the other four talk to the outside
    world (the hub, the network, the file system) and turn exceptions into
    messages.

    The embedding has three layers:
    - [PyStr]: Python [str] as a list of code points, with the three string
      methods the program calls ([split], [isspace], [==]) and the two the
      specification talks about ([join], [strip]);
    - [Effects]: the process-wide class attributes, the trace of external
      calls, and a state-and-exception monad run against an oracle that
      answers each external call;
    - [SpaceBuilder]: the methods, in the order of the source. *)

From Stdlib Require Import List NArith Bool Ascii String Permutation Lia.
Import ListNotations.

Set Implicit Arguments.

(* ================================================================== *)
(** ** Python strings *)

Module PyStr.

(** A Python [str] is a sequence of Unicode code points. *)
Definition char := N.
Definition pystr := list char.

(** A literal of the source (all of them are ASCII). *)
Definition str (s : string) : pystr :=
  map N_of_ascii (list_ascii_of_string s).

Definition newline : char := 10%N.

(** [s == t] on strings. *)
Fixpoint str_eqb (s t : pystr) : bool :=
  match s, t with
  | [], [] => true
  | c :: s', d :: t' => N.eqb c d && str_eqb s' t'
  | _, _ => false
  end.

(** The code points for which CPython's [str.isspace] answers yes
    (bidirectional class WS, B or S, or category Zs). *)
Definition is_whitespace (c : char) : bool :=
  (N.leb 9 c && N.leb c 13)
  || (N.leb 28 c && N.leb c 32)
  || N.eqb c 133 || N.eqb c 160 || N.eqb c 5760
  || (N.leb 8192 c && N.leb c 8202)
  || N.eqb c 8232 || N.eqb c 8233 || N.eqb c 8239
  || N.eqb c 8287 || N.eqb c 12288.

(** [s.isspace()]: at least one character, and all of them whitespace. *)
Definition isspace (s : pystr) : bool :=
  match s with
  | [] => false
  | _ :: _ => forallb is_whitespace s
  end.

(** [s.split("\n")]: the pieces between newlines; never the empty list. *)
Fixpoint split_newline (s : pystr) : list pystr :=
  match s with
  | [] => [[]]
  | c :: s' =>
      if N.eqb c newline then [] :: split_newline s'
      else match split_newline s' with
           | [] => [[c]]
           | line :: lines => (c :: line) :: lines
           end
  end.

(** ["\n".join(ls)]. *)
Fixpoint join_newline (ls : list pystr) : pystr :=
  match ls with
  | [] => []
  | [l] => l
  | l :: rest => l ++ newline :: join_newline rest
  end.

(** [s.lstrip()], [s.rstrip()] and [s.strip()]. *)
Fixpoint lstrip (s : pystr) : pystr :=
  match s with
  | [] => []
  | c :: s' => if is_whitespace c then lstrip s' else s
  end.

Definition rstrip (s : pystr) : pystr := rev (lstrip (rev s)).

Definition strip (s : pystr) : pystr := rstrip (lstrip s).

End PyStr.
Import PyStr.

(* ================================================================== *)
(** ** [SpaceBuilder.split_space_names] *)

(** The test of the loop body: [name == "" or name.isspace()]. *)
Definition blank (name : pystr) : bool :=
  str_eqb name (str "") || isspace name.

Definition nonblank (name : pystr) : bool := negb (blank name).

(** Some character of the string is not whitespace. *)
Definition has_ink (s : pystr) : bool :=
  existsb (fun c => negb (is_whitespace c)) s.

(** One iteration of [for name in name_list]. *)
Definition split_step (filtered_list : list pystr) (name : pystr) : list pystr :=
  if negb (blank name) then filtered_list ++ [name] else filtered_list.

Definition split_space_names (names : pystr) : list pystr :=
  let name_list := split_newline names in
  fold_left split_step name_list [].

(** What the specification says the parser returns: the trimmed non-blank
    lines.  Compared with [split_space_names] below. *)
Definition spec_split_space_names (names : pystr) : list pystr :=
  map strip (filter (fun l => negb (blank l)) (split_newline names)).

(** Several lines as one string, each followed by a newline. *)
Definition unlines (ls : list string) : pystr :=
  flat_map (fun l => str l ++ [newline]) ls.

(* ================================================================== *)
(** ** The outside world, the class attributes and the monad *)

Module Effects.

(** An instance of [Exception]: its class name and [str(ex)].  Every
    handler of the program is [except Exception]; asynchronous
    [BaseException]s (a keyboard interrupt, interpreter exit) are outside
    the model. *)
Record exn := Exn { exn_class : pystr; exn_text : pystr }.

Inductive result (A : Type) : Type :=
| Ok (a : A)
| Raised (ex : exn).
Arguments Raised {A} ex.

(** A class object, compared by identity. *)
Definition pytype := N.

(** A gradio component: its class and the rest of the object. *)
Record component := Component { type_of : pytype; label : pystr }.

(** What the program reads of a [gr.Interface]. *)
Record Interface := mkInterface {
  input_components : list component;
  output_components : list component }.

(** What the program reads of a [requests.Response]. *)
Record Response := mkResponse { status_code : N }.

(** An open file object. *)
Definition file := N.

(** The calls that leave the program, indexed by the type of their value. *)
Inductive call : Type -> Type :=
| get_full_repo_name (model_id token : pystr) : call pystr
| requests_get (url : pystr) : call Response
| Interface_load (name : pystr) : call Interface
| create_repo (name token repo_type space_sdk : pystr) : call pystr
| open_file (path mode : pystr) : call file
| file_write (f : file) (data : pystr) : call N
| file_close (f : file) : call unit
| time_sleep (secs : N) : call unit
| upload_file (path_or_fileobj path_in_repo repo_id repo_type token : pystr)
  : call pystr.

(** A call together with how it ended. *)
Inductive event : Type :=
| Ev : forall R : Type, call R -> result R -> event.

(** The outside world answers a call knowing everything that happened
    before it; any sequence of answers is the behaviour of some oracle. *)
Definition oracle := forall R : Type, list event -> call R -> result R.

(** [error_message] and [url] are the two class attributes of
    [SpaceBuilder] (both [None] when the class is created); [trace] is the
    external calls so far, oldest first; [stdout] is what [print] wrote. *)
Record state := mkState {
  error_message : option pystr;
  url : option pystr;
  trace : list event;
  stdout : list pystr }.

Definition initial : state := mkState None None [] [].

Definition M (A : Type) : Type := state -> result A * state.

Definition ret {A} (a : A) : M A := fun s => (Ok a, s).

Definition raise {A} (ex : exn) : M A := fun s => (Raised ex, s).

Definition bind {A B} (m : M A) (k : A -> M B) : M B :=
  fun s =>
    match m s with
    | (Ok a, s') => k a s'
    | (Raised ex, s') => (Raised ex, s')
    end.

(** The body of a [try]: what it returned or what it raised, as a value. *)
Definition attempt {A} (m : M A) : M (result A) :=
  fun s => let (r, s') := m s in (Ok r, s').

(** Assigning the class attributes, and writing a line to the log. *)
Definition with_error (msg : pystr) (s : state) : state :=
  mkState (Some msg) (url s) (trace s) (stdout s).

Definition with_url (u : pystr) (s : state) : state :=
  mkState (error_message s) (Some u) (trace s) (stdout s).

Definition with_output (text : pystr) (s : state) : state :=
  mkState (error_message s) (url s) (trace s) (stdout s ++ [text]).

Definition set_error_message (msg : pystr) : M unit :=
  fun s => (Ok tt, with_error msg s).

Definition set_url (u : pystr) : M unit :=
  fun s => (Ok tt, with_url u s).

Definition get_error_message : M (option pystr) :=
  fun s => (Ok (error_message s), s).

Definition get_url : M (option pystr) :=
  fun s => (Ok (url s), s).

Definition print (text : pystr) : M unit :=
  fun s => (Ok tt, with_output text s).

Definition record (e : event) (s : state) : state :=
  mkState (error_message s) (url s) (trace s ++ [e]) (stdout s).

(** An external call: ask the oracle, log the call and its outcome. *)
Definition perform (env : oracle) {R} (c : call R) : M R :=
  fun s => let r := env R (trace s) c in (r, record (Ev c r) s).

(** [time.sleep(secs)] returns [None] and does not fail. *)
Definition sleep (secs : N) : M unit :=
  fun s => (Ok tt, record (Ev (time_sleep secs) (Ok tt)) s).

(** A list comprehension whose element expression is effectful. *)
Fixpoint comprehension {A B} (f : A -> M B) (l : list A) : M (list B) :=
  match l with
  | [] => ret []
  | a :: l' =>
      bind (f a) (fun b =>
      bind (comprehension f l') (fun bs =>
      ret (b :: bs)))
  end.

End Effects.
Import Effects.

Declare Scope py_scope.
Delimit Scope py_scope with py.
Notation "x <- m ;; k" := (bind m (fun x => k))
  (at level 61, m at next level, right associativity) : py_scope.
Notation "m ;; k" := (bind m (fun _ => k))
  (at level 61, right associativity) : py_scope.

(* ================================================================== *)
(** ** The messages and the URL of the source *)

Definition msg_input_types : pystr :=
  str "Provided space input types are different".

Definition msg_output_types : pystr :=
  str "Provided space output types are different".

Definition msg_incorrect_token : pystr :=
  str "You have given an incorrect HuggingFace token".

(** [f"The {repo_name} is already used."] *)
Definition msg_already_used (repo_name : pystr) : pystr :=
  str "The " ++ repo_name ++ str " is already used.".

Definition msg_network : pystr :=
  str "Can not send a request to https://huggingface.co".

Definition msg_unloadable : pystr :=
  str "One of the given space cannot be loaded to gradio, sorry for the inconvenience. "
  ++ [newline] ++ str "Please use different input space names!".

Definition msg_space_name : pystr :=
  str "Please provide a correct space name as Only regular characters and '-', '_', '.' accepted. '--' and '..' are forbidden. '-' and '.' cannot start or end the name.".

Definition msg_temp_file : pystr :=
  str "An exception occurred during temporary file writing".

Definition msg_upload : pystr :=
  str "An exception occurred during writing app.py to the target space".

Definition msg_fill_inputs : pystr :=
  str "Please fill all the inputs".

(** [f"https://huggingface.co/spaces/{repo_name}"] *)
Definition space_url (repo_name : pystr) : pystr :=
  str "https://huggingface.co/spaces/" ++ repo_name.

(* ================================================================== *)
(** ** [SpaceBuilder.control_input_and_output_types] *)

(** [a == b] on two Python lists of class objects: same length and the
    same object at every position. *)
Fixpoint types_eqb (a b : list pytype) : bool :=
  match a, b with
  | [], [] => true
  | x :: a', y :: b' => N.eqb x y && types_eqb a' b'
  | _, _ => false
  end.

(** [np.all] of a Python [bool] is that [bool]: the two operands of [==]
    are lists, so the comparison is not element-wise. *)
Definition np_all (b : bool) : bool := b.

(** [[type(c) for c in components]] *)
Definition types_of (components : list component) : list pytype :=
  map type_of components.

Local Open Scope py_scope.

(** The [for interface in interface_list] loop, from any position. *)
Fixpoint control_loop (first_input_types first_output_types : list pytype)
    (interface_list : list Interface) : M bool :=
  match interface_list with
  | [] => ret true
  | interface :: rest =>
      let interface_input_types := types_of (input_components interface) in
      if negb (np_all (types_eqb interface_input_types first_input_types)) then
        set_error_message msg_input_types ;;
        ret false
      else
        let interface_output_types := types_of (output_components interface) in
        if negb (np_all (types_eqb interface_output_types first_output_types)) then
          set_error_message msg_output_types ;;
          ret false
        else control_loop first_input_types first_output_types rest
  end.

Definition IndexError : exn :=
  Exn (str "IndexError") (str "list index out of range").

Definition control_input_and_output_types (interface_list : list Interface)
  : M bool :=
  match interface_list with
  | [] => raise IndexError
  | first :: _ =>
      let first_input_types := types_of (input_components first) in
      let first_output_types := types_of (output_components first) in
      control_loop first_input_types first_output_types interface_list
  end.

(* ================================================================== *)
(** ** The methods that call out *)

Section Methods.

(** The outside world. *)
Variable env : oracle.

(** Python's rendering of a list of [str] inside an f-string
    ([format(name_list, "")], that is [repr]); a built-in, not part of the
    program. *)
Variable repr_list : list pystr -> pystr.

Definition file_as_a_string (name_list : list pystr) (title description : pystr)
  : pystr :=
  str "import gradio as gr"
  ++ [newline] ++ str "name_list = " ++ repr_list name_list
  ++ [newline]
  ++ str "interfaces = [gr.Interface.load(name) for name in name_list]"
  ++ [newline]
  ++ str "gr.mix.Parallel(*interfaces, title=" ++ [34%N] ++ title ++ [34%N]
  ++ str ", description=" ++ [34%N] ++ description ++ [34%N]
  ++ str ").launch()".

Definition check_space_name_availability (hf_token space_name : pystr)
  : M bool :=
  r <- attempt (perform env (get_full_repo_name space_name hf_token)) ;;
  match r with
  | Raised ex =>
      print (exn_text ex) ;;
      set_error_message msg_incorrect_token ;;
      ret false
  | Ok repo_name =>
      r <- attempt (
        let url := space_url repo_name in
        response <- perform env (requests_get url) ;;
        if N.eqb (status_code response) 200 then
          set_error_message (msg_already_used repo_name) ;;
          ret false
        else
          print (str "The space name " ++ repo_name ++ str " is available") ;;
          ret true) ;;
      match r with
      | Ok b => ret b
      | Raised ex =>
          print (exn_text ex) ;;
          set_error_message msg_network ;;
          ret false
      end
  end.

Definition load_and_check_spaces (names : pystr) : M bool :=
  let name_list := split_space_names names in
  r <- attempt (comprehension (fun name => perform env (Interface_load name))
                              name_list) ;;
  match r with
  | Raised ex =>
      print (exn_text ex) ;;
      set_error_message msg_unloadable ;;
      ret false
  | Ok interfaces =>
      ok <- control_input_and_output_types interfaces ;;
      if negb ok then ret false
      else
        print (str "Loaded and checked input spaces, great it works!") ;;
        ret true
  end.

Definition create_space
    (input_space_names target_space_name hf_token title description : pystr)
  : M bool :=
  let name_list := split_space_names input_space_names in
  r <- attempt (perform env (create_repo target_space_name hf_token
                                         (str "space") (str "gradio"))) ;;
  match r with
  | Raised ex =>
      print (exn_text ex) ;;
      set_error_message msg_space_name ;;
      ret false
  | Ok _ =>
      repo_name <- perform env (get_full_repo_name target_space_name hf_token) ;;
      r <- attempt (
        let file_string := file_as_a_string name_list title description in
        temp_file <- perform env (open_file (str "temp_file.txt") (str "w")) ;;
        perform env (file_write temp_file file_string) ;;
        perform env (file_close temp_file)) ;;
      match r with
      | Raised ex =>
          print (exn_text ex) ;;
          set_error_message msg_temp_file ;;
          ret false
      | Ok _ =>
          sleep 1 ;;
          r <- attempt (
            file_url <- perform env (upload_file (str "temp_file.txt")
                                       (str "app.py") repo_name (str "space")
                                       hf_token) ;;
            set_url (space_url repo_name) ;;
            ret true) ;;
          match r with
          | Ok b => ret b
          | Raised ex =>
              print (exn_text ex) ;;
              set_error_message msg_upload ;;
              ret false
          end
      end
  end.

Definition build_space
    (space_names hf_token target_space_name interface_title
     interface_description : pystr) : M (option pystr) :=
  if str_eqb space_names (str "") || isspace space_names
     || str_eqb hf_token (str "") || isspace hf_token
     || str_eqb target_space_name (str "") || isspace target_space_name
     || str_eqb interface_title (str "") || isspace interface_title
     || str_eqb interface_description (str "") || isspace interface_description
  then ret (Some msg_fill_inputs)
  else
    ok <- check_space_name_availability hf_token target_space_name ;;
    if negb ok then get_error_message
    else
      ok <- load_and_check_spaces space_names ;;
      if negb ok then get_error_message
      else
        ok <- create_space space_names target_space_name hf_token
                           interface_title interface_description ;;
        if negb ok then get_error_message
        else get_url.

End Methods.

(* ================================================================== *)
(** ** Reading descriptors and traces *)

(** The two lists of classes that the checker compares. *)
Definition input_types (d : Interface) : list pytype :=
  types_of (input_components d).

Definition output_types (d : Interface) : list pytype :=
  types_of (output_components d).

Definition same_inputs (first d : Interface) : Prop :=
  input_types d = input_types first.

Definition same_outputs (first d : Interface) : Prop :=
  output_types d = output_types first.

Definition same_signature (first d : Interface) : Prop :=
  same_inputs first d /\ same_outputs first d.

(** Does the event close file [f]? *)
Definition closes (f : file) (e : event) : bool :=
  match e with
  | Ev c _ =>
      match c with
      | file_close g => N.eqb f g
      | _ => false
      end
  end.

(** Did [open] hand out file [f] in this event? *)
Definition opens (f : file) (e : event) : bool :=
  match e with
  | Ev c r =>
      match c in call R return result R -> bool with
      | open_file _ _ => fun r => match r with Ok g => N.eqb f g | Raised _ => false end
      | _ => fun _ => false
      end r
  end.

(** The calls each phase of [build_space] may issue. *)
Definition availability_call (e : event) : bool :=
  match e with
  | Ev c _ =>
      match c with
      | get_full_repo_name _ _ | requests_get _ => true
      | _ => false
      end
  end.

Definition loading_call (e : event) : bool :=
  match e with
  | Ev c _ =>
      match c with
      | Interface_load _ => true
      | _ => false
      end
  end.

Definition creation_call (e : event) : bool :=
  match e with
  | Ev c _ =>
      match c with
      | create_repo _ _ _ _ | get_full_repo_name _ _ | open_file _ _
      | file_write _ _ | file_close _ | time_sleep _
      | upload_file _ _ _ _ _ => true
      | _ => false
      end
  end.

(* ================================================================== *)
(** ** Reading events *)

(** The name of a call, to read a trace at a glance. *)
Inductive call_name : Type :=
| c_get_full_repo_name | c_requests_get | c_Interface_load | c_create_repo
| c_open | c_write | c_close | c_sleep | c_upload_file.

Definition name_of {R} (c : call R) : call_name :=
  match c with
  | get_full_repo_name _ _ => c_get_full_repo_name
  | requests_get _ => c_requests_get
  | Interface_load _ => c_Interface_load
  | create_repo _ _ _ _ => c_create_repo
  | open_file _ _ => c_open
  | file_write _ _ => c_write
  | file_close _ => c_close
  | time_sleep _ => c_sleep
  | upload_file _ _ _ _ _ => c_upload_file
  end.

Definition event_name (e : event) : call_name :=
  match e with Ev c _ => name_of c end.

(** Did the call return (rather than raise)? *)
Definition event_ok (e : event) : bool :=
  match e with
  | Ev _ (Ok _) => true
  | Ev _ (Raised _) => false
  end.

(** The exception the call raised, if it raised. *)
Definition event_exn (e : event) : option exn :=
  match e with
  | Ev _ (Ok _) => None
  | Ev _ (Raised ex) => Some ex
  end.

(** An upload that went through. *)
Definition successful_upload (e : event) : bool :=
  match event_name e with
  | c_upload_file => event_ok e
  | _ => false
  end.

(** An attempt to create the repository, whatever came of it. *)
Definition repository_creation (e : event) : bool :=
  match event_name e with
  | c_create_repo => true
  | _ => false
  end.

(** The space that an [Interface.load] event asked for. *)
Definition loaded_name (e : event) : option pystr :=
  match e with
  | Ev c _ =>
      match c with
      | Interface_load name => Some name
      | _ => None
      end
  end.

(** The interface that an [Interface.load] event answered. *)
Definition loaded_interface (e : event) : option Interface :=
  match e with
  | Ev c r =>
      match c in call R return result R -> option Interface with
      | Interface_load _ =>
          fun r => match r with Ok i => Some i | Raised _ => None end
      | _ => fun _ => None
      end r
  end.

(** The page that a [requests.get] event fetched. *)
Definition fetched_url (e : event) : option pystr :=
  match e with
  | Ev c _ =>
      match c with
      | requests_get url => Some url
      | _ => None
      end
  end.

(* ================================================================== *)
(** ** Scenarios: concrete worlds used by the examples below *)

(** A [repr] good enough for names without quotes or escapes. *)
Definition simple_repr (l : list pystr) : pystr :=
  str "[" ++ List.concat (map (fun n => str "'" ++ n ++ str "', ") l) ++ str "]".

Definition OSError (text : string) : exn := Exn (str "OSError") (str text).

(** A world in which every call succeeds: the token belongs to [user], the
    target name is free (404), every space is a text-to-text interface. *)
Definition text_to_text : Interface :=
  mkInterface [Component 1%N (str "in")] [Component 1%N (str "out")].

Definition friendly : oracle :=
  fun R _ c =>
    match c in call R return result R with
    | get_full_repo_name model_id _ => Ok (str "user/" ++ model_id)
    | requests_get _ => Ok (mkResponse 404)
    | Interface_load _ => Ok text_to_text
    | create_repo name _ _ _ => Ok (space_url (str "user/" ++ name))
    | open_file _ _ => Ok 3%N
    | file_write _ data => Ok (N.of_nat (List.length data))
    | file_close _ => Ok tt
    | time_sleep _ => Ok tt
    | upload_file _ _ repo_id _ _ => Ok (space_url repo_id)
    end.

(** A world like [friendly] in which the LayoutLMv2 space takes and
    returns an image while every other space is text-to-text. *)
Definition image_to_image : Interface :=
  mkInterface [Component 2%N (str "in")] [Component 2%N (str "out")].

Definition mixed_spaces : oracle :=
  fun R history c =>
    match c in call R return result R with
    | Interface_load name =>
        if str_eqb name (str "spaces/nielsr/LayoutLMv2-FUNSD")
        then Ok image_to_image else Ok text_to_text
    | c' => friendly history c'
    end.

(** A world in which the hub rejects the token. *)
Definition bad_token : oracle :=
  fun R history c =>
    match c in call R return result R with
    | get_full_repo_name _ _ =>
        Raised (Exn (str "HTTPError") (str "401 Client Error: Unauthorized"))
    | c' => friendly history c'
    end.

(** The hub answers the first name resolution and fails the second one
    (the connection drops, or the token is revoked, in between). *)
Definition resolution_fails_later : oracle :=
  fun R history c =>
    match c in call R return result R with
    | get_full_repo_name model_id token =>
        if existsb (fun e => match e with Ev c' _ =>
                      match name_of c' with c_create_repo => true | _ => false end
                    end) history
        then Raised (OSError "connection reset")
        else friendly history (get_full_repo_name model_id token)
    | c' => friendly history c'
    end.

(** The file opens, and writing to it fails (a title that the locale's
    encoding cannot encode, a full disk). *)
Definition write_fails : oracle :=
  fun R history c =>
    match c in call R return result R with
    | file_write _ _ => Raised (Exn (str "UnicodeEncodeError")
                                   (str "codec can't encode character"))
    | c' => friendly history c'
    end.

(* ================================================================== *)
(** ** What the oracle answers, and what each phase may record *)

(** The first call of the availability check: the name resolution. *)
Definition resolution_answer (env : oracle) (hf_token space_name : pystr)
    (s : state) : result pystr :=
  env pystr (trace s) (get_full_repo_name space_name hf_token).

(** The second call of the availability check: the lookup of the space's
    page, issued after the resolution answered [repo_name]. *)
Definition lookup_answer (env : oracle) (hf_token space_name repo_name : pystr)
    (s : state) : result Response :=
  env Response
      (trace s ++ [Ev (get_full_repo_name space_name hf_token) (Ok repo_name)])
      (requests_get (space_url repo_name)).

(** The calls of a [create_space] in which every step succeeds, with the
    values the world answered. *)
Definition creation_trace (repr_list : list pystr -> pystr)
    (input_space_names target_space_name hf_token title description : pystr)
    (v repo_name : pystr) (f : file) (n : N) (file_url : pystr) : list event :=
  [Ev (create_repo target_space_name hf_token (str "space") (str "gradio"))
      (Ok v);
   Ev (get_full_repo_name target_space_name hf_token) (Ok repo_name);
   Ev (open_file (str "temp_file.txt") (str "w")) (Ok f);
   Ev (file_write f (file_as_a_string repr_list
                       (split_space_names input_space_names) title description))
      (Ok n);
   Ev (file_close f) (Ok tt);
   Ev (time_sleep 1) (Ok tt);
   Ev (upload_file (str "temp_file.txt") (str "app.py") repo_name (str "space")
                   hf_token) (Ok file_url)].

(** The steps of [create_space], in the order of the source, and the
    message its handler records when a step raises ([None]: the step has
    no handler). *)
Definition creation_steps : list call_name :=
  [c_create_repo; c_get_full_repo_name; c_open; c_write; c_close; c_sleep;
   c_upload_file].

Definition message_of_step (n : call_name) : option pystr :=
  match n with
  | c_create_repo => Some msg_space_name
  | c_open | c_write | c_close => Some msg_temp_file
  | c_upload_file => Some msg_upload
  | _ => None
  end.

(** The messages that each phase of [build_space] can leave in
    [error_message]. *)
Definition recorded_by_availability (m : option pystr) : Prop :=
  m = Some msg_incorrect_token
  \/ m = Some msg_network
  \/ exists repo_name, m = Some (msg_already_used repo_name).

Definition recorded_by_loading (m : option pystr) : Prop :=
  m = Some msg_unloadable
  \/ m = Some msg_input_types
  \/ m = Some msg_output_types.

Definition recorded_by_creation (m : option pystr) : Prop :=
  m = Some msg_space_name
  \/ m = Some msg_temp_file
  \/ m = Some msg_upload.

(** The course of one [build_space] whose five fields are filled: the
    availability check runs from the initial state and only issues its own
    calls; if it returns [False] the run ends there, in the state the check
    left, with the message the check recorded.  Otherwise the loader runs
    from that state, likewise; otherwise [create_space] runs from the state
    the loader left, and the run returns its message, the URL it built, or
    the exception it let through. *)
Definition phases_in_order (env : oracle) (repr_list : list pystr -> pystr)
    (space_names hf_token target_space_name interface_title
     interface_description : pystr) (s : state) : Prop :=
  let run := build_space env repr_list space_names hf_token target_space_name
                         interface_title interface_description s in
  exists b1 s1 t1,
    check_space_name_availability env hf_token target_space_name s = (Ok b1, s1)
    /\ trace s1 = trace s ++ t1
    /\ t1 <> [] /\ forallb availability_call t1 = true
    /\ if negb b1 then
         run = (Ok (error_message s1), s1)
         /\ recorded_by_availability (error_message s1)
       else
         exists b2 s2 t2,
           load_and_check_spaces env space_names s1 = (Ok b2, s2)
           /\ trace s2 = trace s1 ++ t2
           /\ t2 <> [] /\ forallb loading_call t2 = true
           /\ if negb b2 then
                run = (Ok (error_message s2), s2)
                /\ recorded_by_loading (error_message s2)
              else
                exists r3 s3 t3,
                  create_space env repr_list space_names target_space_name
                               hf_token interface_title interface_description s2
                  = (r3, s3)
                  /\ trace s3 = trace s2 ++ t3
                  /\ t3 <> [] /\ forallb creation_call t3 = true
                  /\ match r3 with
                     | Ok false =>
                         run = (Ok (error_message s3), s3)
                         /\ recorded_by_creation (error_message s3)
                     | Ok true =>
                         run = (Ok (url s3), s3)
                         /\ exists repo_name,
                              url s3 = Some (space_url repo_name)
                     | Raised ex => run = (Raised ex, s3)
                     end.

(* ================================================================== *)
(** * Properties *)

(** ** Strings: [split] and [join] *)

Section SplitJoin.

Lemma str_eqb_empty (s : pystr) : str_eqb s (str "") = true <-> s = [].
Proof. destruct s; simpl; split; congruence. Qed.

Lemma split_newline_not_nil (s : pystr) : split_newline s <> [].
Proof.
  induction s as [|c s IH]; simpl; [discriminate|].
  destruct (N.eqb c newline); [discriminate|].
  destruct (split_newline s); discriminate.
Qed.

Lemma join_cons (l : pystr) (ls : list pystr) :
  ls <> [] -> join_newline (l :: ls) = l ++ newline :: join_newline ls.
Proof. destruct ls; [congruence|reflexivity]. Qed.

Lemma join_split (s : pystr) : join_newline (split_newline s) = s.
Proof.
  induction s as [|c s IH]; [reflexivity|].
  pose proof (split_newline_not_nil s) as Hne.
  cbn [split_newline]. destruct (N.eqb_spec c newline) as [->|Hc].
  - rewrite join_cons by assumption. now rewrite IH.
  - destruct (split_newline s) as [|l ls]; [congruence|].
    rewrite <- IH. destruct ls; reflexivity.
Qed.

Lemma split_no_newline (s : pystr) :
  Forall (fun l => ~ In newline l) (split_newline s).
Proof.
  induction s as [|c s IH]; simpl.
  - constructor; [intros []|constructor].
  - destruct (N.eqb_spec c newline) as [->|Hc].
    + constructor; [intros []|exact IH].
    + destruct (split_newline s) as [|l ls].
      * constructor; [|constructor]. intros [H|[]]. congruence.
      * inversion IH as [|? ? Hl Hls]; subst.
        constructor; [|exact Hls]. intros [H|H]; [congruence|tauto].
Qed.

Lemma split_line_then (l t : pystr) :
  ~ In newline l ->
  split_newline (l ++ newline :: t) = l :: split_newline t.
Proof.
  induction l as [|c l IH]; intros Hl; simpl.
  - reflexivity.
  - destruct (N.eqb_spec c newline) as [->|Hc].
    + exfalso. apply Hl. now left.
    + rewrite IH; [reflexivity|]. intros H. apply Hl. now right.
Qed.

Lemma split_one_line (l : pystr) : ~ In newline l -> split_newline l = [l].
Proof.
  induction l as [|c l IH]; intros Hl; simpl; [reflexivity|].
  destruct (N.eqb_spec c newline) as [->|Hc].
  - exfalso. apply Hl. now left.
  - rewrite IH; [reflexivity|]. intros H. apply Hl. now right.
Qed.

Lemma split_join (ls : list pystr) :
  ls <> [] ->
  Forall (fun l => ~ In newline l) ls ->
  split_newline (join_newline ls) = ls.
Proof.
  induction ls as [|l ls IH]; intros Hne Hall; [congruence|].
  inversion Hall as [|? ? Hl Hls]; subst.
  destruct ls as [|l' ls'].
  - simpl. now apply split_one_line.
  - change (join_newline (l :: l' :: ls'))
      with (l ++ newline :: join_newline (l' :: ls')).
    rewrite split_line_then by assumption.
    f_equal. apply IH; [discriminate|assumption].
Qed.

End SplitJoin.

(** ** [split_space_names] *)

Lemma fold_split_step (lines acc : list pystr) :
  fold_left split_step lines acc = acc ++ filter nonblank lines.
Proof.
  revert acc. induction lines as [|l lines IH]; intros acc; simpl.
  - now rewrite app_nil_r.
  - rewrite IH. unfold split_step, nonblank.
    destruct (negb (blank l)); [now rewrite <- app_assoc|reflexivity].
Qed.

Lemma split_space_names_filter (names : pystr) :
  split_space_names names = filter nonblank (split_newline names).
Proof. unfold split_space_names. now rewrite fold_split_step. Qed.

Lemma filter_filter {A} (p : A -> bool) (l : list A) :
  filter p (filter p l) = filter p l.
Proof.
  induction l as [|a l IH]; simpl; [reflexivity|].
  destruct (p a) eqn:E; simpl; [rewrite E|]; now rewrite IH.
Qed.

Lemma split_space_names_elements (names : pystr) :
  Forall (fun l => blank l = false /\ ~ In newline l) (split_space_names names).
Proof.
  rewrite split_space_names_filter.
  pose proof (split_no_newline names) as H.
  induction H as [|l ls Hl Hls IH]; simpl; [constructor|].
  unfold nonblank at 1. destruct (blank l) eqn:E; simpl; [exact IH|].
  constructor; [split; assumption|exact IH].
Qed.

(** C3, as the specification words it, fails: a kept line keeps its
    leading and trailing whitespace. *)
Lemma split_space_names_does_not_trim :
  split_space_names (str " a ") = [str " a "]
  /\ spec_split_space_names (str " a ") = [str "a"]
  /\ split_space_names (str " a ") <> spec_split_space_names (str " a ").
Proof. repeat split; try reflexivity. vm_compute. discriminate. Qed.

(** C3 (amended): [split_space_names] returns, in their original order and
    with duplicates, exactly the lines of the input that are neither empty
    nor whitespace-only, each one unchanged (it is not trimmed); the lines
    are the pieces of the input between newline characters.  Empty input
    gives the empty list, and "a\n\n  \nb\nb\n" gives ["a","b","b"]. *)
Theorem split_space_names_nonblank_lines :
  (forall names : pystr,
      exists lines : list pystr,
        lines <> []
        /\ Forall (fun l => ~ In newline l) lines
        /\ join_newline lines = names
        /\ split_space_names names = filter (fun l => negb (blank l)) lines)
  /\ split_space_names (str "") = []
  /\ split_space_names (unlines ["a"; ""; "  "; "b"; "b"]%string)
     = [str "a"; str "b"; str "b"].
Proof.
  split; [|split; reflexivity].
  intros names. exists (split_newline names).
  split; [apply split_newline_not_nil|].
  split; [apply split_no_newline|].
  split; [apply join_split|].
  apply split_space_names_filter.
Qed.

(** The unit test of the repository ([test_split_space_names]). *)
Example test_split_space_names :
  split_space_names
    (str "spaces/nielsr/LayoutLMv2-FUNSD" ++ [newline]
     ++ str "spaces/valhalla/glide-text2im" ++ [newline]
     ++ [newline] ++ str "    "
     ++ [newline] ++ str "   "
     ++ [newline] ++ str "spaces/valhalla/glide-text2im"
     ++ [newline] ++ str "  "
     ++ [newline] ++ str "spaces/valhalla/glide-text2im"
     ++ [newline])
  = [str "spaces/nielsr/LayoutLMv2-FUNSD"; str "spaces/valhalla/glide-text2im";
     str "spaces/valhalla/glide-text2im"; str "spaces/valhalla/glide-text2im"].
Proof. reflexivity. Qed.

(** C10: joining the result of [split_space_names] with newlines and
    parsing it again gives the same list, and every element of the result
    is a non-blank line without a newline character. *)
Theorem split_space_names_rejoin :
  forall s : pystr,
    split_space_names (join_newline (split_space_names s)) = split_space_names s
    /\ Forall (fun l => blank l = false /\ ~ In newline l) (split_space_names s).
Proof.
  intros s. split; [|apply split_space_names_elements].
  pose proof (split_space_names_elements s) as Hel.
  rewrite (split_space_names_filter (join_newline _)).
  destruct (split_space_names s) as [|l ls] eqn:E; [reflexivity|].
  rewrite split_join.
  - rewrite <- E, split_space_names_filter. apply filter_filter.
  - discriminate.
  - eapply Forall_impl; [|exact Hel]. simpl. tauto.
Qed.

(** ** [control_input_and_output_types] *)

Section Control.

Lemma types_eqb_eq (a b : list pytype) : types_eqb a b = true <-> a = b.
Proof.
  revert b. induction a as [|x a IH]; intros [|y b]; simpl;
    try (split; congruence).
  rewrite andb_true_iff, N.eqb_eq, IH. split.
  - intros [-> ->]. reflexivity.
  - intros H. injection H. auto.
Qed.

Lemma types_eqb_refl (a : list pytype) : types_eqb a a = true.
Proof. now apply types_eqb_eq. Qed.

Lemma types_eqb_neq (a b : list pytype) : types_eqb a b = false <-> a <> b.
Proof.
  rewrite <- types_eqb_eq. destruct (types_eqb a b); split; congruence.
Qed.

Lemma same_signature_dec (first d : Interface) :
  {same_signature first d} + {~ same_signature first d}.
Proof.
  unfold same_signature, same_inputs, same_outputs.
  destruct (types_eqb (input_types d) (input_types first)) eqn:Ei.
  - destruct (types_eqb (output_types d) (output_types first)) eqn:Eo.
    + left. split; now apply types_eqb_eq.
    + right. intros [_ H]. now apply types_eqb_neq in Eo.
  - right. intros [H _]. now apply types_eqb_neq in Ei.
Qed.

(** Every list either matches throughout or has a first descriptor that
    does not. *)
Lemma first_mismatch (first : Interface) (l : list Interface) :
  Forall (same_signature first) l
  \/ exists pre d post,
       l = pre ++ d :: post
       /\ Forall (same_signature first) pre
       /\ ~ same_signature first d.
Proof.
  induction l as [|d l IH]; [left; constructor|].
  destruct (same_signature_dec first d) as [Hd|Hd].
  - destruct IH as [IH|(pre & d' & post & -> & Hpre & Hd')].
    + left. now constructor.
    + right. exists (d :: pre), d', post. repeat split; auto.
  - right. exists [], d, l. repeat split; auto.
Qed.

Variables (first : Interface).

Let loop := control_loop (input_types first) (output_types first).

Lemma control_loop_all (l : list Interface) (s : state) :
  Forall (same_signature first) l -> loop l s = (Ok true, s).
Proof.
  induction 1 as [|d l [Hi Ho] _ IH]; [reflexivity|].
  unfold loop in *. cbn [control_loop]. unfold np_all.
  fold (input_types d) (output_types d).
  rewrite Hi, Ho, !types_eqb_refl. exact IH.
Qed.

Lemma control_loop_skip (pre l : list Interface) (s : state) :
  Forall (same_signature first) pre -> loop (pre ++ l) s = loop l s.
Proof.
  induction 1 as [|d pre [Hi Ho] _ IH]; [reflexivity|].
  unfold loop in *. cbn [control_loop app]. unfold np_all.
  fold (input_types d) (output_types d).
  rewrite Hi, Ho, !types_eqb_refl. exact IH.
Qed.

Lemma control_loop_inputs_differ (d : Interface) (post : list Interface)
    (s : state) :
  ~ same_inputs first d ->
  loop (d :: post) s = (Ok false, with_error msg_input_types s).
Proof.
  intros H. apply types_eqb_neq in H.
  unfold loop. cbn [control_loop]. unfold np_all.
  fold (input_types d). now rewrite H.
Qed.

Lemma control_loop_outputs_differ (d : Interface) (post : list Interface)
    (s : state) :
  same_inputs first d -> ~ same_outputs first d ->
  loop (d :: post) s = (Ok false, with_error msg_output_types s).
Proof.
  intros Hi H. apply types_eqb_neq in H. apply types_eqb_eq in Hi.
  unfold loop. cbn [control_loop]. unfold np_all.
  fold (input_types d) (output_types d). now rewrite Hi, H.
Qed.

End Control.

Lemma control_as_loop (first : Interface) (rest : list Interface) (s : state) :
  control_input_and_output_types (first :: rest) s
  = control_loop (input_types first) (output_types first) (first :: rest) s.
Proof. reflexivity. Qed.

Lemma control_at_first_mismatch (first : Interface)
    (pre : list Interface) (d : Interface) (post : list Interface) (s : state) :
  Forall (same_signature first) pre ->
  ~ same_signature first d ->
  control_loop (input_types first) (output_types first) (pre ++ d :: post) s
  = (Ok false,
     with_error (if types_eqb (input_types d) (input_types first)
                 then msg_output_types else msg_input_types) s).
Proof.
  intros Hpre Hd. rewrite control_loop_skip by assumption.
  destruct (types_eqb (input_types d) (input_types first)) eqn:E.
  - apply types_eqb_eq in E. apply control_loop_outputs_differ; [exact E|].
    intros Ho. apply Hd. now split.
  - apply types_eqb_neq in E. now apply control_loop_inputs_differ.
Qed.

(** C2: on a non-empty list, [control_input_and_output_types] returns
    [True] exactly when every descriptor has the input classes and the
    output classes of the first one (same classes, same order, same
    length), and then records nothing.  Otherwise it returns [False] at
    the first descriptor that differs, having recorded the input message
    when that descriptor's inputs differ and the output message when its
    inputs agree and its outputs differ; in particular, when all inputs
    agree and some outputs differ, the message is the output one. *)
Theorem control_input_and_output_types_spec :
  forall (first : Interface) (rest : list Interface) (s : state),
    let interface_list := first :: rest in
    let run := control_input_and_output_types interface_list s in
    (fst run = Ok true <-> Forall (same_signature first) interface_list)
    /\ (Forall (same_signature first) interface_list -> run = (Ok true, s))
    /\ (forall pre d post,
           interface_list = pre ++ d :: post ->
           Forall (same_signature first) pre ->
           ~ same_signature first d ->
           (~ same_inputs first d ->
            run = (Ok false, with_error msg_input_types s))
           /\ (same_inputs first d ->
               run = (Ok false, with_error msg_output_types s)))
    /\ (~ Forall (same_signature first) interface_list ->
        exists msg,
          run = (Ok false, with_error msg s)
          /\ (msg = msg_input_types \/ msg = msg_output_types))
    /\ (Forall (same_inputs first) interface_list ->
        ~ Forall (same_outputs first) interface_list ->
        run = (Ok false, with_error msg_output_types s)).
Proof.
  intros first rest s interface_list run.
  assert (Hrun : run = control_loop (input_types first) (output_types first)
                                    interface_list s) by reflexivity.
  assert (Hall : Forall (same_signature first) interface_list ->
                 run = (Ok true, s)).
  { intros H. rewrite Hrun. now apply control_loop_all. }
  assert (Hmis : forall pre d post,
             interface_list = pre ++ d :: post ->
             Forall (same_signature first) pre ->
             ~ same_signature first d ->
             run = (Ok false,
                    with_error (if types_eqb (input_types d) (input_types first)
                                then msg_output_types else msg_input_types) s)).
  { intros pre d post E Hpre Hd. rewrite Hrun, E.
    now apply control_at_first_mismatch. }
  split; [|split; [exact Hall|split; [|split]]].
  - split.
    + intros Htrue.
      destruct (first_mismatch first interface_list)
        as [H|(pre & d & post & E & Hpre & Hd)]; [exact H|].
      rewrite (Hmis pre d post E Hpre Hd) in Htrue. discriminate.
    + intros H. now rewrite (Hall H).
  - intros pre d post E Hpre Hd. rewrite (Hmis pre d post E Hpre Hd). split.
    + intros Hi. apply types_eqb_neq in Hi. now rewrite Hi.
    + intros Hi. apply types_eqb_eq in Hi. now rewrite Hi.
  - intros Hnot.
    destruct (first_mismatch first interface_list)
      as [H|(pre & d & post & E & Hpre & Hd)]; [contradiction|].
    eexists. split; [exact (Hmis pre d post E Hpre Hd)|].
    destruct (types_eqb _ _); auto.
  - intros Hin Hout.
    destruct (first_mismatch first interface_list)
      as [H|(pre & d & post & E & Hpre & Hd)].
    + exfalso. apply Hout. eapply Forall_impl; [|exact H].
      intros a [_ Ha]. exact Ha.
    + rewrite (Hmis pre d post E Hpre Hd).
      assert (Hd_in : same_inputs first d).
      { rewrite Forall_forall in Hin. apply Hin. rewrite E.
        apply in_or_app. right. now left. }
      apply types_eqb_eq in Hd_in. now rewrite Hd_in.
Qed.

(** Two descriptors of one signature pass; a text-to-image descriptor
    after a text-to-text one fails on the output axis, its inputs
    agreeing. *)
Example control_two_equal :
  control_input_and_output_types [text_to_text; text_to_text] initial
  = (Ok true, initial).
Proof. reflexivity. Qed.

Example control_outputs_differ :
  control_input_and_output_types
    [text_to_text;
     mkInterface [Component 1%N (str "prompt")] [Component 2%N (str "image")]]
    initial
  = (Ok false, with_error msg_output_types initial).
Proof. reflexivity. Qed.

(** The indexing [interface_list[0]] fails on the empty list. *)
Example control_empty_list (s : state) :
  control_input_and_output_types [] s = (Raised IndexError, s).
Proof. reflexivity. Qed.

(** C9: a list of exactly one descriptor is accepted, and the class
    attributes (so the error message) are left as they were. *)
Theorem control_single_descriptor :
  forall (d : Interface) (s : state),
    control_input_and_output_types [d] s = (Ok true, s).
Proof.
  intros d s. rewrite control_as_loop. apply control_loop_all.
  constructor; [split; reflexivity|constructor].
Qed.

(** ** [check_space_name_availability] *)

(** Running the monad: unfold the combinators, keep the oracle's answers. *)
Ltac run_monad :=
  cbv beta iota zeta delta
    [bind ret raise attempt perform sleep print set_error_message set_url
     get_error_message get_url].

Section Availability.

Variable env : oracle.
Variables hf_token space_name : pystr.
Variable s : state.

Let run := check_space_name_availability env hf_token space_name s.

Lemma check_resolution_raises (ex : exn) :
  resolution_answer env hf_token space_name s = Raised ex ->
  run = (Ok false,
         with_error msg_incorrect_token
           (with_output (exn_text ex)
              (record (Ev (get_full_repo_name space_name hf_token) (Raised ex)) s))).
Proof.
  unfold run, resolution_answer, check_space_name_availability. run_monad.
  intros ->. reflexivity.
Qed.

Lemma check_lookup_raises (repo_name : pystr) (ex : exn) :
  resolution_answer env hf_token space_name s = Ok repo_name ->
  lookup_answer env hf_token space_name repo_name s = Raised ex ->
  run = (Ok false,
         with_error msg_network
           (with_output (exn_text ex)
              (record (Ev (requests_get (space_url repo_name)) (Raised ex))
                 (record (Ev (get_full_repo_name space_name hf_token)
                             (Ok repo_name)) s)))).
Proof.
  unfold run, resolution_answer, lookup_answer, check_space_name_availability.
  run_monad. intros -> H. cbn [trace record]. rewrite H. reflexivity.
Qed.

Lemma check_lookup_answers (repo_name : pystr) (response : Response) :
  resolution_answer env hf_token space_name s = Ok repo_name ->
  lookup_answer env hf_token space_name repo_name s = Ok response ->
  let s' := record (Ev (requests_get (space_url repo_name)) (Ok response))
              (record (Ev (get_full_repo_name space_name hf_token)
                          (Ok repo_name)) s) in
  run = if N.eqb (status_code response) 200
        then (Ok false, with_error (msg_already_used repo_name) s')
        else (Ok true,
              with_output (str "The space name " ++ repo_name
                           ++ str " is available") s').
Proof.
  unfold run, resolution_answer, lookup_answer, check_space_name_availability.
  run_monad. intros -> H. cbn [trace record]. rewrite H.
  destruct (N.eqb (status_code response) 200); reflexivity.
Qed.

End Availability.

(** C5: [check_space_name_availability] never raises.  It returns [True]
    exactly when the name resolution answers and the lookup answers with a
    status other than 200.  It returns [False] and records a message when
    the resolution raises (incorrect-token message), when the lookup
    answers 200 (name-already-used message) and when the lookup raises
    (network message): a network failure is a failed check. *)
Theorem check_space_name_availability_spec :
  forall (env : oracle) (hf_token space_name : pystr) (s : state),
    let run := check_space_name_availability env hf_token space_name s in
    let resolution := resolution_answer env hf_token space_name s in
    let lookup := fun repo_name =>
                    lookup_answer env hf_token space_name repo_name s in
    (fst run = Ok true <->
     exists repo_name response,
       resolution = Ok repo_name
       /\ lookup repo_name = Ok response
       /\ status_code response <> 200%N)
    /\ (forall ex,
          resolution = Raised ex ->
          fst run = Ok false
          /\ error_message (snd run) = Some msg_incorrect_token)
    /\ (forall repo_name response,
          resolution = Ok repo_name ->
          lookup repo_name = Ok response ->
          status_code response = 200%N ->
          fst run = Ok false
          /\ error_message (snd run) = Some (msg_already_used repo_name))
    /\ (forall repo_name ex,
          resolution = Ok repo_name ->
          lookup repo_name = Raised ex ->
          fst run = Ok false
          /\ error_message (snd run) = Some msg_network)
    /\ (fst run = Ok true \/ fst run = Ok false).
Proof.
  intros env hf_token space_name s run resolution lookup.
  assert (H1 := check_resolution_raises env hf_token space_name s).
  assert (H2 := check_lookup_raises env hf_token space_name s).
  assert (H3 := check_lookup_answers env hf_token space_name s).
  cbv zeta in H3. subst run resolution lookup. cbv beta.
  assert (Hcases :
    (exists ex, resolution_answer env hf_token space_name s = Raised ex)
    \/ (exists repo_name,
          resolution_answer env hf_token space_name s = Ok repo_name
          /\ ((exists ex, lookup_answer env hf_token space_name repo_name s
                          = Raised ex)
              \/ (exists response,
                    lookup_answer env hf_token space_name repo_name s
                    = Ok response)))).
  { destruct (resolution_answer env hf_token space_name s)
      as [repo_name|ex]; [right|left; eauto].
    exists repo_name. split; [reflexivity|].
    destruct (lookup_answer env hf_token space_name repo_name s);
      [right|left]; eauto. }
  split; [|split; [|split; [|split]]].
  - split.
    + intros Htrue.
      destruct Hcases as [[ex Er]|(repo_name & Er & [[ex El]|[response El]])].
      * rewrite (H1 ex Er) in Htrue. discriminate.
      * rewrite (H2 repo_name ex Er El) in Htrue. discriminate.
      * exists repo_name, response. repeat split; try assumption.
        intros H200. rewrite (H3 repo_name response Er El), H200 in Htrue.
        discriminate.
    + intros (repo_name & response & Er & El & Hst).
      rewrite (H3 repo_name response Er El).
      apply N.eqb_neq in Hst. now rewrite Hst.
  - intros ex Er. now rewrite (H1 ex Er).
  - intros repo_name response Er El Hst.
    rewrite (H3 repo_name response Er El), Hst. now split.
  - intros repo_name ex Er El. now rewrite (H2 repo_name ex Er El).
  - destruct Hcases as [[ex Er]|(repo_name & Er & [[ex El]|[response El]])].
    + rewrite (H1 ex Er). auto.
    + rewrite (H2 repo_name ex Er El). auto.
    + rewrite (H3 repo_name response Er El).
      destruct (N.eqb (status_code response) 200); auto.
Qed.

(** ** [create_space] *)

(** Ask the oracle for the next answer: the outermost pending call is the
    one whose history holds no unanswered call. *)
Ltac ask env :=
  match goal with
  | |- context [env ?R ?t ?c] =>
      lazymatch t with
      | context [env] => fail
      | _ => destruct (env R t c) as [?|?] eqn:?
      end
  end;
  cbn [trace record with_error with_url with_output url error_message stdout
       fst snd] in *.

Section Creation.

Variable env : oracle.
Variable repr_list : list pystr -> pystr.
Variables input_space_names target_space_name hf_token title description : pystr.
Variable s : state.

Let run :=
  create_space env repr_list input_space_names target_space_name hf_token
               title description s.

Lemma create_space_cases :
  exists t,
    trace (snd run) = trace s ++ t
    /\ t <> []
    /\ forallb creation_call t = true
    /\ match fst run with
       | Ok true =>
           exists v repo_name f n file_url,
             t = creation_trace repr_list input_space_names target_space_name
                                hf_token title description
                                v repo_name f n file_url
             /\ url (snd run) = Some (space_url repo_name)
             /\ error_message (snd run) = error_message s
       | Ok false =>
           url (snd run) = url s
           /\ (error_message (snd run) = Some msg_space_name
               \/ error_message (snd run) = Some msg_temp_file
               \/ error_message (snd run) = Some msg_upload)
       | Raised ex =>
           url (snd run) = url s
           /\ error_message (snd run) = error_message s
           /\ exists v,
                t = [Ev (create_repo target_space_name hf_token
                                     (str "space") (str "gradio")) (Ok v);
                     Ev (get_full_repo_name target_space_name hf_token)
                        (Raised ex)]
       end.
Proof.
  unfold run, create_space. run_monad. cbn [trace record].
  ask env;
    [|eexists; split; [reflexivity|]; split; [discriminate|];
      repeat split; auto].
  ask env;
    [|eexists; split; [rewrite <- app_assoc; reflexivity|];
      split; [discriminate|]; repeat split; eexists; reflexivity].
  do 3 (ask env;
    [|eexists; split; [rewrite <- !app_assoc; reflexivity|];
      split; [discriminate|]; repeat split; auto]).
  ask env;
    eexists; (split; [rewrite <- !app_assoc; reflexivity|]);
    (split; [discriminate|]); (split; [reflexivity|]);
    [|repeat split; auto].
  repeat match goal with u : unit |- _ => destruct u end.
  do 5 eexists. repeat split.
Qed.

End Creation.

(** The one call of [create_space] that no [try] surrounds: when the
    repository was created and the name resolution then raises, the
    exception leaves [create_space], and no message is recorded. *)
Lemma create_space_resolution_raises
    (env : oracle) (repr_list : list pystr -> pystr)
    (names target hf_token title description : pystr) (s : state)
    (v : pystr) (ex : exn) :
  let creation := create_repo target hf_token (str "space") (str "gradio") in
  let resolution := get_full_repo_name target hf_token in
  env _ (trace s) creation = Ok v ->
  env _ (trace s ++ [Ev creation (Ok v)]) resolution = Raised ex ->
  create_space env repr_list names target hf_token title description s
  = (Raised ex, record (Ev resolution (Raised ex)) (record (Ev creation (Ok v)) s)).
Proof.
  intros creation resolution H1 H2. unfold create_space. run_monad.
  fold creation resolution. rewrite H1. cbn [trace record]. rewrite H2.
  reflexivity.
Qed.

(** When the file opens and the write raises, the handler records the
    message and returns: the trace ends with the failed write, the file
    [f] is left open. *)
Lemma create_space_write_raises
    (env : oracle) (repr_list : list pystr -> pystr)
    (names target hf_token title description : pystr) (s : state)
    (v repo_name : pystr) (f : file) (ex : exn) :
  let creation := create_repo target hf_token (str "space") (str "gradio") in
  let resolution := get_full_repo_name target hf_token in
  let opening := open_file (str "temp_file.txt") (str "w") in
  let writing :=
    file_write f (file_as_a_string repr_list (split_space_names names)
                                   title description) in
  let t := [Ev creation (Ok v); Ev resolution (Ok repo_name);
            Ev opening (Ok f)] in
  env _ (trace s) creation = Ok v ->
  env _ (trace s ++ [Ev creation (Ok v)]) resolution = Ok repo_name ->
  env _ ((trace s ++ [Ev creation (Ok v)]) ++ [Ev resolution (Ok repo_name)])
      opening = Ok f ->
  env _ (((trace s ++ [Ev creation (Ok v)]) ++ [Ev resolution (Ok repo_name)])
         ++ [Ev opening (Ok f)]) writing = Raised ex ->
  let run :=
    create_space env repr_list names target hf_token title description s in
  fst run = Ok false
  /\ error_message (snd run) = Some msg_temp_file
  /\ trace (snd run) = trace s ++ t ++ [Ev writing (Raised ex)]
  /\ existsb (opens f) (t ++ [Ev writing (Raised ex)]) = true
  /\ existsb (closes f) (t ++ [Ev writing (Raised ex)]) = false.
Proof.
  intros creation resolution opening writing t H1 H2 H3 H4 run.
  unfold run, create_space. run_monad.
  fold creation resolution opening. rewrite H1. cbn [trace record].
  rewrite H2. cbn [trace record]. rewrite H3. cbn [trace record].
  fold writing. rewrite H4. cbn [fst snd error_message with_error trace
                                 with_output record].
  repeat split.
  - now rewrite <- !app_assoc.
  - unfold t, creation, resolution, opening, writing.
    cbn [existsb app opens]. rewrite N.eqb_refl. reflexivity.
Qed.

(** C6 (the code departs from it): with the repository created and the
    second name resolution failing, [create_space] does not return [False]
    with a message: the exception leaves it, and leaves [build_space] too,
    with no message recorded.  The same call inside
    [check_space_name_availability] is guarded and gives the token
    message. *)
Theorem create_space_lets_resolution_error_escape :
  let names := str "spaces/a" in
  let creation := create_repo (str "tgt") (str "tok") (str "space") (str "gradio") in
  let resolution := get_full_repo_name (str "tgt") (str "tok") in
  let ex := OSError "connection reset" in
  create_space resolution_fails_later simple_repr names (str "tgt") (str "tok")
               (str "T") (str "D") initial
  = (Raised ex,
     mkState None None
             [Ev creation (Ok (space_url (str "user/tgt")));
              Ev resolution (Raised ex)] [])
  /\ (let run := build_space resolution_fails_later simple_repr names
                             (str "tok") (str "tgt") (str "T") (str "D")
                             initial in
      fst run = Raised ex /\ error_message (snd run) = None)
  /\ (let run := check_space_name_availability bad_token (str "tok")
                                               (str "tgt") initial in
      fst run = Ok false /\ error_message (snd run) = Some msg_incorrect_token).
Proof. repeat split. Qed.

(** C7 (the code departs from it): when [open] succeeds and [write]
    raises, [create_space] returns [False] with the file-writing message
    and [close] is never called on the file that was opened; on the path
    where the write succeeds the file is closed. *)
Theorem create_space_leaves_file_open_when_write_raises :
  (let run := create_space write_fails simple_repr (str "spaces/a")
                           (str "tgt") (str "tok") (str "T") (str "D")
                           initial in
   fst run = Ok false
   /\ error_message (snd run) = Some msg_temp_file
   /\ map (fun e => match e with Ev c _ => name_of c end) (trace (snd run))
      = [c_create_repo; c_get_full_repo_name; c_open; c_write]
   /\ existsb (opens 3%N) (trace (snd run)) = true
   /\ existsb (closes 3%N) (trace (snd run)) = false)
  /\ (let run := create_space friendly simple_repr (str "spaces/a")
                              (str "tgt") (str "tok") (str "T") (str "D")
                              initial in
      fst run = Ok true
      /\ existsb (opens 3%N) (trace (snd run)) = true
      /\ existsb (closes 3%N) (trace (snd run)) = true).
Proof. repeat split. Qed.

(** ** Blank fields and empty name lists *)

Lemma forallb_false_existsb {A} (p : A -> bool) (l : list A) :
  forallb p l = false <-> existsb (fun a => negb (p a)) l = true.
Proof.
  induction l as [|a l IH]; simpl; [split; discriminate|].
  destruct (p a); simpl; [exact IH|tauto].
Qed.

Lemma blank_false_ink (s : pystr) : blank s = false <-> has_ink s = true.
Proof.
  unfold blank, has_ink. destruct s as [|c s].
  - simpl. split; discriminate.
  - change (str_eqb (c :: s) (str "")) with false.
    cbn [orb isspace]. apply forallb_false_existsb.
Qed.

Lemma ink_survives_split (s : pystr) :
  has_ink s = true -> existsb nonblank (split_newline s) = true.
Proof.
  induction s as [|c s IH]; [discriminate|].
  intros H. cbn [split_newline].
  destruct (N.eqb_spec c newline) as [->|Hc].
  - cbn [existsb]. rewrite IH; [apply orb_true_r|exact H].
  - pose proof (split_newline_not_nil s) as Hne.
    destruct (split_newline s) as [|line lines]; [congruence|].
    cbn [existsb] in *. apply orb_true_iff.
    unfold has_ink in H. cbn [existsb] in H. apply orb_true_iff in H.
    destruct H as [H|H].
    + left. unfold nonblank. apply negb_true_iff, blank_false_ink.
      unfold has_ink. cbn [existsb]. now rewrite H.
    + apply IH, orb_true_iff in H. destruct H as [H|H]; [left|now right].
      unfold nonblank in *. apply negb_true_iff, blank_false_ink in H.
      apply negb_true_iff, blank_false_ink.
      unfold has_ink in *. cbn [existsb]. rewrite H. apply orb_true_r.
Qed.

Lemma existsb_filter_not_nil {A} (p : A -> bool) (l : list A) :
  existsb p l = true -> filter p l <> [].
Proof.
  induction l as [|a l IH]; simpl; [discriminate|].
  destruct (p a); [discriminate|exact IH].
Qed.

(** A field that passes the check of [build_space] names at least one
    space. *)
Lemma split_space_names_not_nil (names : pystr) :
  blank names = false -> split_space_names names <> [].
Proof.
  intros H. rewrite split_space_names_filter.
  now apply existsb_filter_not_nil, ink_survives_split, blank_false_ink.
Qed.

(** The test at the head of [build_space] is the disjunction of the five
    [blank] tests. *)
Lemma build_space_guard (a b c d e : pystr) :
  str_eqb a (str "") || isspace a
  || str_eqb b (str "") || isspace b
  || str_eqb c (str "") || isspace c
  || str_eqb d (str "") || isspace d
  || str_eqb e (str "") || isspace e
  = blank a || blank b || blank c || blank d || blank e.
Proof. unfold blank. now rewrite !orb_assoc. Qed.

(** ** [load_and_check_spaces] *)

Section Loading.

Variable env : oracle.

Let load_all := comprehension (fun name => perform env (Interface_load name)).

Lemma load_all_cases (name_list : list pystr) (s : state) :
  exists t,
    snd (load_all name_list s)
    = mkState (error_message s) (url s) (trace s ++ t) (stdout s)
    /\ forallb loading_call t = true
    /\ (name_list <> [] -> t <> [])
    /\ match fst (load_all name_list s) with
       | Ok interfaces => List.length interfaces = List.length name_list
       | Raised _ => True
       end.
Proof.
  revert s. induction name_list as [|name l IH]; intros s.
  - exists []. cbn. rewrite app_nil_r. destruct s; repeat split; congruence.
  - unfold load_all in *. cbn [comprehension]. run_monad.
    destruct (@env Interface (trace s) (Interface_load name)) as [i|ex].
    + destruct (IH (record (Ev (Interface_load name) (Ok i)) s))
        as (t & Hs & Ht & _ & Hr).
      destruct (comprehension _ l _) as [[loaded|ex'] s'];
        cbn [fst snd] in *; subst s'; cbn [record error_message url trace stdout];
        exists (Ev (Interface_load name) (Ok i) :: t);
        rewrite <- app_assoc; repeat split; auto;
        try (intros _; discriminate).
      cbn [List.length]. now rewrite Hr.
    + exists [Ev (Interface_load name) (Raised ex)].
      repeat split. intros _. discriminate.
Qed.

Lemma control_cases (interfaces : list Interface) (s : state) :
  interfaces <> [] ->
  control_input_and_output_types interfaces s = (Ok true, s)
  \/ control_input_and_output_types interfaces s
     = (Ok false, with_error msg_input_types s)
  \/ control_input_and_output_types interfaces s
     = (Ok false, with_error msg_output_types s).
Proof.
  destruct interfaces as [|first rest]; [congruence|]. intros _.
  rewrite control_as_loop.
  destruct (first_mismatch first (first :: rest))
    as [H|(pre & d & post & E & Hpre & Hd)].
  - left. now apply control_loop_all.
  - right. rewrite E, control_at_first_mismatch by assumption.
    destruct (types_eqb _ _); auto.
Qed.

(** The loader never raises on a non-empty name list; it only issues
    [Interface.load] calls and never touches [url]; when it returns
    [False] it has recorded one of its three messages. *)
Lemma load_and_check_cases (names : pystr) (s : state) :
  split_space_names names <> [] ->
  let run := load_and_check_spaces env names s in
  exists t,
    trace (snd run) = trace s ++ t
    /\ t <> []
    /\ forallb loading_call t = true
    /\ url (snd run) = url s
    /\ match fst run with
       | Ok true => error_message (snd run) = error_message s
       | Ok false =>
           error_message (snd run) = Some msg_unloadable
           \/ error_message (snd run) = Some msg_input_types
           \/ error_message (snd run) = Some msg_output_types
       | Raised _ => False
       end.
Proof.
  intros Hne run. unfold run, load_and_check_spaces. run_monad.
  destruct (load_all_cases (split_space_names names) s)
    as (t & Hs & Ht & Hnil & Hr).
  specialize (Hnil Hne).
  unfold load_all in *.
  destruct (comprehension _ (split_space_names names) s) as [[interfaces|ex] s'];
    cbn [fst snd] in *; subst s'; exists t.
  - assert (Hi : interfaces <> []).
    { intros ->. destruct (split_space_names names); [congruence|discriminate]. }
    destruct (control_cases (mkState (error_message s) (url s) (trace s ++ t)
                                     (stdout s)) Hi) as [E|[E|E]];
      rewrite E;
      cbn [fst snd negb with_error with_output trace url error_message];
      repeat split; auto.
  - cbn [fst snd with_error with_output trace url error_message].
    repeat split; auto.
Qed.

End Loading.

(** The unit tests of the repository that go through the network, replayed
    against worlds that answer as the hub did when the tests were written:
    an unknown token fails the availability check, two different spaces
    fail the loader, the same space twice passes it. *)
Example test_check_space_name_availability :
  fst (check_space_name_availability bad_token (str "123123") (str "123123")
                                     initial)
  = Ok false.
Proof. reflexivity. Qed.

Example test_load_and_check_spaces_1 :
  fst (load_and_check_spaces mixed_spaces
         (str "spaces/nielsr/LayoutLMv2-FUNSD" ++ [newline]
          ++ str "spaces/valhalla/glide-text2im") initial)
  = Ok false.
Proof. reflexivity. Qed.

Example test_load_and_check_spaces_2 :
  fst (load_and_check_spaces mixed_spaces
         (str "spaces/valhalla/glide-text2im" ++ [newline]
          ++ str "spaces/valhalla/glide-text2im") initial)
  = Ok true.
Proof. reflexivity. Qed.

(** ** [build_space] *)

(** The availability check never raises; it only issues its two calls and
    never touches [url]; when it returns [False] it has recorded one of
    its three messages. *)
Lemma check_cases (env : oracle) (hf_token space_name : pystr) (s : state) :
  let run := check_space_name_availability env hf_token space_name s in
  exists t,
    trace (snd run) = trace s ++ t
    /\ t <> []
    /\ forallb availability_call t = true
    /\ url (snd run) = url s
    /\ match fst run with
       | Ok true => error_message (snd run) = error_message s
       | Ok false => recorded_by_availability (error_message (snd run))
       | Raised _ => False
       end.
Proof.
  intros run. unfold run, check_space_name_availability, recorded_by_availability.
  run_monad. cbn [trace record].
  ask env;
    [|eexists; split; [reflexivity|]; split; [discriminate|];
      repeat split; auto].
  ask env;
    [|eexists; split; [rewrite <- app_assoc; reflexivity|];
      split; [discriminate|]; repeat split; auto].
  match goal with
  | |- context [N.eqb (status_code ?response) 200] =>
      destruct (N.eqb (status_code response) 200)
  end;
    cbn [trace record with_error with_url with_output url error_message fst snd];
    eexists; (split; [rewrite <- app_assoc; reflexivity|]);
    (split; [discriminate|]); repeat split; eauto.
Qed.

(** The guard of [build_space]: one blank field ends the run at once. *)
Lemma build_space_not_filled (env : oracle) (repr_list : list pystr -> pystr)
    (a b c d e : pystr) (s : state) :
  blank a || blank b || blank c || blank d || blank e = true ->
  build_space env repr_list a b c d e s = (Ok (Some msg_fill_inputs), s).
Proof.
  intros H. unfold build_space. now rewrite build_space_guard, H.
Qed.

(** C4: when one of the five fields is empty or whitespace-only,
    [build_space] returns "Please fill all the inputs" and leaves the state
    as it was: the trace is unchanged, so no external call was made. *)
Theorem build_space_blank_field :
  forall (env : oracle) (repr_list : list pystr -> pystr)
         (space_names hf_token target_space_name interface_title
          interface_description : pystr) (s : state),
    blank space_names = true
    \/ blank hf_token = true
    \/ blank target_space_name = true
    \/ blank interface_title = true
    \/ blank interface_description = true ->
    let run := build_space env repr_list space_names hf_token target_space_name
                           interface_title interface_description s in
    run = (Ok (Some (str "Please fill all the inputs")), s)
    /\ trace (snd run) = trace s.
Proof.
  intros env repr_list a b c d e s H run.
  assert (E : run = (Ok (Some (str "Please fill all the inputs")), s)).
  { apply build_space_not_filled. rewrite !orb_true_iff. tauto. }
  now rewrite E.
Qed.

(** C4 at a blank title, in a world where every call would succeed. *)
Lemma build_space_blank_title :
  let run := build_space friendly simple_repr (str "spaces/a") (str "tok")
                         (str "tgt") (str "   ") (str "D") initial in
  run = (Ok (Some (str "Please fill all the inputs")), initial)
  /\ trace (snd run) = trace initial.
Proof.
  apply (build_space_blank_field friendly simple_repr (str "spaces/a")
           (str "tok") (str "tgt") (str "   ") (str "D") initial).
  right. right. right. left. reflexivity.
Defined.

Section Build.

Variable env : oracle.
Variable repr_list : list pystr -> pystr.
Variables space_names hf_token target_space_name : pystr.
Variables interface_title interface_description : pystr.
Variable s : state.

Let check := check_space_name_availability env hf_token target_space_name.
Let load := load_and_check_spaces env space_names.
Let create :=
  create_space env repr_list space_names target_space_name hf_token
               interface_title interface_description.
Let run :=
  build_space env repr_list space_names hf_token target_space_name
              interface_title interface_description s.

Hypothesis filled :
  blank space_names = false
  /\ blank hf_token = false
  /\ blank target_space_name = false
  /\ blank interface_title = false
  /\ blank interface_description = false.

(** With the five fields filled, [build_space] is the three phases chained
    on the state, each one gating the next. *)
Lemma build_space_filled :
  run =
  match check s with
  | (Ok true, s1) =>
      match load s1 with
      | (Ok true, s2) =>
          match create s2 with
          | (Ok true, s3) => (Ok (url s3), s3)
          | (Ok false, s3) => (Ok (error_message s3), s3)
          | (Raised ex, s3) => (Raised ex, s3)
          end
      | (Ok false, s2) => (Ok (error_message s2), s2)
      | (Raised ex, s2) => (Raised ex, s2)
      end
  | (Ok false, s1) => (Ok (error_message s1), s1)
  | (Raised ex, s1) => (Raised ex, s1)
  end.
Proof.
  destruct filled as (Ha & Hb & Hc & Hd & He).
  unfold run, build_space. rewrite build_space_guard, Ha, Hb, Hc, Hd, He.
  cbn [orb]. run_monad. fold check load create.
  destruct (check s) as [[[|]|ex1] s1]; cbn [negb]; try reflexivity.
  destruct (load s1) as [[[|]|ex2] s2]; cbn [negb]; try reflexivity.
  destruct (create s2) as [[[|]|ex3] s3]; reflexivity.
Qed.

Lemma build_space_runs_phases_in_order :
  phases_in_order env repr_list space_names hf_token target_space_name
                  interface_title interface_description s.
Proof.
  unfold phases_in_order. cbv zeta. fold run check load create.
  rewrite build_space_filled.
  destruct (check_cases env hf_token target_space_name s)
    as (t1 & Ht1 & Hn1 & Hc1 & _ & Hm1).
  fold check in Ht1, Hm1.
  destruct (check s) as [[b1|ex1] s1]; cbn [fst snd] in *; [|contradiction].
  exists b1, s1, t1. do 4 (split; [trivial|]).
  destruct b1; cbn [negb]; [|now split].
  assert (Hnames : split_space_names space_names <> []).
  { apply split_space_names_not_nil, filled. }
  destruct (load_and_check_cases env space_names s1 Hnames)
    as (t2 & Ht2 & Hn2 & Hc2 & _ & Hm2).
  fold load in Ht2, Hm2.
  destruct (load s1) as [[b2|ex2] s2]; cbn [fst snd] in *; [|contradiction].
  exists b2, s2, t2. do 4 (split; [trivial|]).
  destruct b2; cbn [negb]; [|now split].
  destruct (create_space_cases env repr_list space_names target_space_name
              hf_token interface_title interface_description s2)
    as (t3 & Ht3 & Hn3 & Hc3 & Hm3).
  fold create in Ht3, Hm3.
  destruct (create s2) as [r3 s3]; cbn [fst snd] in *.
  exists r3, s3, t3. do 4 (split; [trivial|]).
  destruct r3 as [[|]|ex3].
  - split; [reflexivity|].
    destruct Hm3 as (_ & repo_name & _ & _ & _ & _ & Hu & _). eauto.
  - split; [reflexivity|]. apply Hm3.
  - reflexivity.
Qed.

End Build.

(** C1: with five fields that are neither empty nor whitespace-only,
    [build_space] runs the availability check, then the loader, then
    [create_space], each from the state its predecessor left and each
    issuing only its own calls; it stops at the first one that returns
    [False], in the state that phase left (so nothing later was called),
    and returns the message that phase recorded; when all three return
    [True] it returns the URL that [create_space] built. *)
Theorem build_space_phases :
  forall (env : oracle) (repr_list : list pystr -> pystr)
         (space_names hf_token target_space_name interface_title
          interface_description : pystr) (s : state),
    blank space_names = false ->
    blank hf_token = false ->
    blank target_space_name = false ->
    blank interface_title = false ->
    blank interface_description = false ->
    phases_in_order env repr_list space_names hf_token target_space_name
                    interface_title interface_description s.
Proof.
  intros. apply build_space_runs_phases_in_order. auto.
Qed.

(** C1 at five filled fields, in a world where every call succeeds. *)
Lemma build_space_phases_friendly :
  phases_in_order friendly simple_repr (str "spaces/a") (str "tok") (str "tgt")
                  (str "T") (str "D") initial.
Proof.
  apply (build_space_phases friendly simple_repr (str "spaces/a") (str "tok")
           (str "tgt") (str "T") (str "D") initial); reflexivity.
Defined.

(** ** The [url] attribute *)

(** The end-to-end run of the specification: five filled fields, a free
    target name, loadable spaces of one signature and a valid token. *)
Example build_space_end_to_end :
  fst (build_space friendly simple_repr
         (str "spaces/a" ++ [newline] ++ str "spaces/b")
         (str "tok") (str "tgt") (str "T") (str "D") initial)
  = Ok (Some (str "https://huggingface.co/spaces/user/tgt")).
Proof. reflexivity. Qed.

(** C8: [url] is assigned only where [create_space] returns [True], which
    is after a successful upload at the end of a run in which every step
    succeeded; the value is the fixed prefix
    "https://huggingface.co/spaces/" followed by the fully-qualified name
    that the resolution answered, and [build_space] returns it.  On every
    other path of [create_space] and of [build_space] (a message is
    returned, or an exception passes) [url] keeps its old value. *)
Theorem url_assigned_only_on_success :
  forall (env : oracle) (repr_list : list pystr -> pystr)
         (space_names hf_token target_space_name interface_title
          interface_description : pystr) (s : state),
    (let run := create_space env repr_list space_names target_space_name
                             hf_token interface_title interface_description s in
     match fst run with
     | Ok true =>
         exists v repo_name f n file_url,
           trace (snd run)
           = trace s ++ creation_trace repr_list space_names target_space_name
                          hf_token interface_title interface_description
                          v repo_name f n file_url
           /\ url (snd run)
              = Some (str "https://huggingface.co/spaces/" ++ repo_name)
     | _ => url (snd run) = url s
     end)
    /\ (let run := build_space env repr_list space_names hf_token
                               target_space_name interface_title
                               interface_description s in
        (exists t v repo_name f n file_url,
            trace (snd run)
            = trace s ++ t
              ++ creation_trace repr_list space_names target_space_name
                   hf_token interface_title interface_description
                   v repo_name f n file_url
            /\ url (snd run)
               = Some (str "https://huggingface.co/spaces/" ++ repo_name)
            /\ fst run
               = Ok (Some (str "https://huggingface.co/spaces/" ++ repo_name)))
        \/ (url (snd run) = url s
            /\ (fst run = Ok (Some msg_fill_inputs)
                \/ (exists m, fst run = Ok (Some m)
                              /\ error_message (snd run) = Some m)
                \/ exists ex, fst run = Raised ex))).
Proof.
  intros env repr_list a b c d e s.
  assert (Hcreate : forall s2,
    let run := create_space env repr_list a c b d e s2 in
    match fst run with
    | Ok true =>
        exists v repo_name f n file_url,
          trace (snd run)
          = trace s2 ++ creation_trace repr_list a c b d e v repo_name f n file_url
          /\ url (snd run) = Some (space_url repo_name)
    | Ok false =>
        url (snd run) = url s2
        /\ recorded_by_creation (error_message (snd run))
    | Raised _ => url (snd run) = url s2
    end).
  { intros s2 run.
    destruct (create_space_cases env repr_list a c b d e s2)
      as (t & Ht & _ & _ & Hm).
    fold run in Ht, Hm. destruct (fst run) as [[|]|ex].
    - destruct Hm as (v & repo_name & f & n & file_url & -> & Hu & _).
      exists v, repo_name, f, n, file_url. now split.
    - exact Hm.
    - apply Hm. }
  split.
  - intros run. specialize (Hcreate s). cbv zeta in Hcreate. fold run in Hcreate.
    destruct (fst run) as [[|]|ex]; [exact Hcreate|apply Hcreate|exact Hcreate].
  - intros run.
    destruct (blank a || blank b || blank c || blank d || blank e) eqn:G.
    + right. unfold run. rewrite build_space_not_filled by exact G. auto.
    + rewrite !orb_false_iff in G. destruct G as ((((Ha & Hb) & Hc) & Hd) & He).
      unfold run.
      rewrite build_space_filled by (repeat split; assumption).
      destruct (check_cases env b c s) as (t1 & Ht1 & _ & _ & Hu1 & Hm1).
      destruct (check_space_name_availability env b c s) as [[[|]|ex1] s1];
        cbn [fst snd] in *; [|right|contradiction].
      2:{ split; [exact Hu1|]. right. left.
          destruct Hm1 as [H|[H|[repo H]]]; rewrite H; eauto. }
      destruct (load_and_check_cases env a s1 (split_space_names_not_nil a Ha))
        as (t2 & Ht2 & _ & _ & Hu2 & Hm2).
      destruct (load_and_check_spaces env a s1) as [[[|]|ex2] s2];
        cbn [fst snd] in *; [|right|contradiction].
      2:{ split; [congruence|]. right. left.
          destruct Hm2 as [H|[H|H]]; rewrite H; eauto. }
      specialize (Hcreate s2). cbv zeta in Hcreate.
      destruct (create_space env repr_list a c b d e s2) as [[[|]|ex3] s3];
        cbn [fst snd] in *.
      * left. destruct Hcreate as (v & repo_name & f & n & file_url & Ht3 & Hu3).
        exists (t1 ++ t2), v, repo_name, f, n, file_url.
        split; [|split; [exact Hu3|now rewrite Hu3]].
        rewrite Ht3, Ht2, Ht1, <- !app_assoc. reflexivity.
      * right. destruct Hcreate as [Hu3 Hm3]. split; [congruence|].
        right. left. destruct Hm3 as [H|[H|H]]; rewrite H; eauto.
      * right. split; [congruence|]. right. right. eauto.
Qed.

(* ================================================================== *)
(** * Further properties of the methods *)

(** ** The parser on blank input and on joined inputs *)

Lemma nonblank_has_ink (l : pystr) : nonblank l = has_ink l.
Proof.
  unfold nonblank. pose proof (blank_false_ink l) as H.
  destruct (blank l), (has_ink l); simpl; try reflexivity.
  - destruct H as [_ H]. discriminate (H eq_refl).
  - destruct H as [H _]. discriminate (H eq_refl).
Qed.

Lemma has_ink_split (s : pystr) :
  existsb has_ink (split_newline s) = has_ink s.
Proof.
  induction s as [|c s IH]; [reflexivity|].
  cbn [split_newline]. destruct (N.eqb_spec c newline) as [->|Hc].
  - cbn [existsb]. rewrite IH. reflexivity.
  - pose proof (split_newline_not_nil s) as Hne.
    destruct (split_newline s) as [|line lines]; [congruence|].
    cbn [existsb] in *.
    change (has_ink (c :: line))
      with (negb (is_whitespace c) || has_ink line).
    change (has_ink (c :: s)) with (negb (is_whitespace c) || has_ink s).
    now rewrite <- IH, orb_assoc.
Qed.

Lemma filter_nil_existsb {A} (p : A -> bool) (l : list A) :
  filter p l = [] <-> existsb p l = false.
Proof.
  induction l as [|a l IH]; simpl; [tauto|].
  destruct (p a); simpl; [split; discriminate|exact IH].
Qed.

Lemma existsb_ext_eq {A} (p q : A -> bool) (l : list A) :
  (forall a, p a = q a) -> existsb p l = existsb q l.
Proof. intros H. induction l as [|a l IH]; simpl; [|rewrite H, IH]; auto. Qed.

Lemma split_space_names_nil (names : pystr) :
  split_space_names names = [] <-> blank names = true.
Proof.
  rewrite split_space_names_filter, filter_nil_existsb.
  rewrite (existsb_ext_eq nonblank has_ink _ nonblank_has_ink), has_ink_split.
  rewrite <- nonblank_has_ink. unfold nonblank.
  destruct (blank names); simpl; split; congruence.
Qed.

(** X1: the parser returns the empty list exactly on the inputs that
    [build_space] rejects as unfilled: the empty string and the strings
    made of whitespace only (newlines included). *)
Theorem split_space_names_empty_iff_blank :
  forall names : pystr,
    split_space_names names = []
    <-> (names = str "" \/ isspace names = true).
Proof.
  intros names. rewrite split_space_names_nil. unfold blank.
  rewrite orb_true_iff, str_eqb_empty. reflexivity.
Qed.

Lemma split_newline_app (a b : pystr) :
  split_newline (a ++ newline :: b) = split_newline a ++ split_newline b.
Proof.
  induction a as [|c a IH]; [reflexivity|].
  cbn [app split_newline]. rewrite IH.
  destruct (N.eqb c newline); [reflexivity|].
  pose proof (split_newline_not_nil a) as Hne.
  destruct (split_newline a); [congruence|reflexivity].
Qed.

(** X2: parsing two blocks of names joined by a newline gives the names
    of the first block followed by the names of the second. *)
Theorem split_space_names_app :
  forall a b : pystr,
    split_space_names (a ++ [newline] ++ b)
    = split_space_names a ++ split_space_names b.
Proof.
  intros a b. rewrite !split_space_names_filter.
  cbn [app]. now rewrite split_newline_app, filter_app.
Qed.

(** ** The loader *)

(** X3: [load_and_check_spaces] called with a field that names no space
    (empty or whitespace-only) loads nothing and then fails on
    [interface_list[0]]: the [IndexError] is outside the [try] and leaves
    the method, with no call made and no message recorded. *)
Theorem load_and_check_spaces_blank_names :
  forall (env : oracle) (names : pystr) (s : state),
    blank names = true ->
    load_and_check_spaces env names s = (Raised IndexError, s).
Proof.
  intros env names s H. apply split_space_names_nil in H.
  unfold load_and_check_spaces. rewrite H. reflexivity.
Qed.

(** X3 at the empty string. *)
Lemma load_and_check_spaces_empty_string :
  load_and_check_spaces friendly (str "") initial = (Raised IndexError, initial).
Proof.
  apply (load_and_check_spaces_blank_names friendly (str "") initial).
  reflexivity.
Defined.

(** The checker reads nothing of the state and writes at most
    [error_message]: its run from any state is its run from the initial
    one, replayed. *)
Definition replay (verdict : result bool * state) (s : state)
  : result bool * state :=
  (fst verdict,
   match error_message (snd verdict) with
   | Some m => with_error m s
   | None => s
   end).

Lemma control_loop_replay (fi fo : list pytype) (l : list Interface) (s : state) :
  control_loop fi fo l s = replay (control_loop fi fo l initial) s.
Proof.
  induction l as [|d l IH]; [reflexivity|].
  cbn [control_loop]. unfold np_all.
  destruct (types_eqb (types_of (input_components d)) fi); [|reflexivity].
  destruct (types_eqb (types_of (output_components d)) fo); [|reflexivity].
  exact IH.
Qed.

Lemma control_replay (l : list Interface) (s : state) :
  control_input_and_output_types l s
  = replay (control_input_and_output_types l initial) s.
Proof.
  destruct l as [|first rest]; [reflexivity|].
  unfold control_input_and_output_types. apply control_loop_replay.
Qed.

Section LoadingOrder.

Variable env : oracle.

Let load_all := comprehension (fun name => perform env (Interface_load name)).

Lemma load_all_trace (name_list : list pystr) (s : state) :
  exists t,
    snd (load_all name_list s)
    = mkState (error_message s) (url s) (trace s ++ t) (stdout s)
    /\ map loaded_name t = map Some (firstn (List.length t) name_list)
    /\ match fst (load_all name_list s) with
       | Ok interfaces =>
           List.length t = List.length name_list
           /\ map loaded_interface t = map Some interfaces
           /\ forallb event_ok t = true
       | Raised ex =>
           exists t' name,
             t = t' ++ [Ev (Interface_load name) (Raised ex)]
             /\ forallb event_ok t' = true
       end.
Proof.
  revert s. induction name_list as [|name l IH]; intros s.
  - exists []. cbn. rewrite app_nil_r. destruct s; repeat split.
  - unfold load_all in *. cbn [comprehension]. run_monad.
    destruct (@env Interface (trace s) (Interface_load name)) as [i|ex].
    + destruct (IH (record (Ev (Interface_load name) (Ok i)) s))
        as (t & Hs & Hn & Hr).
      exists (Ev (Interface_load name) (Ok i) :: t).
      destruct (comprehension _ l _) as [[loaded|ex'] s'];
        cbn [fst snd] in *; subst s';
        cbn [record error_message url trace stdout];
        rewrite <- app_assoc; (split; [reflexivity|]);
        (split; [cbn; now rewrite Hn|]).
      * destruct Hr as (Hlen & Hi & Hok). cbn. rewrite Hlen, Hi. auto.
      * destruct Hr as (t' & name' & -> & Hok).
        exists (Ev (Interface_load name) (Ok i) :: t'), name'. split; auto.
    + exists [Ev (Interface_load name) (Raised ex)].
      repeat split. exists [], name. split; reflexivity.
Qed.

End LoadingOrder.

(** The calls and the verdict of the loader, case by case. *)
Lemma load_and_check_trace :
  forall (env : oracle) (names : pystr) (s : state),
    let run := load_and_check_spaces env names s in
    let name_list := split_space_names names in
    exists t,
      trace (snd run) = trace s ++ t
      /\ map loaded_name t = map Some (firstn (List.length t) name_list)
      /\ ((exists t' name ex,
              t = t' ++ [Ev (Interface_load name) (Raised ex)]
              /\ forallb event_ok t' = true
              /\ fst run = Ok false
              /\ error_message (snd run) = Some msg_unloadable)
          \/ (exists interfaces,
                 forallb event_ok t = true
                 /\ List.length t = List.length name_list
                 /\ map loaded_interface t = map Some interfaces
                 /\ fst run = fst (control_input_and_output_types interfaces s)
                 /\ error_message (snd run)
                    = error_message
                        (snd (control_input_and_output_types interfaces s)))).
Proof.
  intros env names s run name_list.
  destruct (load_all_trace env name_list s) as (t & Hs & Hn & Hr).
  exists t. unfold run, load_and_check_spaces. fold name_list. run_monad.
  destruct (comprehension _ name_list s) as [[interfaces|ex] s'];
    cbn [fst snd] in *; subst s'.
  - rewrite (control_replay interfaces
               (mkState (error_message s) (url s) (trace s ++ t) (stdout s))).
    destruct Hr as (Hlen & Hi & Hok).
    assert (Hright :
      forall r s',
        fst r = fst (replay (control_input_and_output_types interfaces initial) s)
        /\ error_message (snd r)
           = error_message
               (snd (replay (control_input_and_output_types interfaces initial) s))
        /\ trace (snd r) = trace s ++ t ->
        r = s' -> 
        trace (snd s') = trace s ++ t
        /\ map loaded_name t = map Some (firstn (List.length t) name_list)
        /\ ((exists t' name ex,
                t = t' ++ [Ev (Interface_load name) (Raised ex)]
                /\ forallb event_ok t' = true
                /\ fst s' = Ok false
                /\ error_message (snd s') = Some msg_unloadable)
            \/ (exists interfaces,
                   forallb event_ok t = true
                   /\ List.length t = List.length name_list
                   /\ map loaded_interface t = map Some interfaces
                   /\ fst s' = fst (control_input_and_output_types interfaces s)
                   /\ error_message (snd s')
                      = error_message
                          (snd (control_input_and_output_types interfaces s))))).
    { intros r s' (H1 & H2 & H3) <-. split; [exact H3|]. split; [exact Hn|].
      right. exists interfaces. rewrite (control_replay interfaces s).
      repeat split; assumption. }
    eapply Hright; [|reflexivity].
    destruct (control_input_and_output_types interfaces initial)
      as [[[|]|ex] [[m|] u tr out]];
      cbn [replay fst snd error_message negb with_error with_output trace];
      repeat split.
  - cbn [fst snd with_error with_output trace error_message].
    split; [reflexivity|]. split; [exact Hn|].
    left. destruct Hr as (t' & name & -> & Hok).
    exists t', name, ex. repeat split. exact Hok.
Qed.

(** X4: [load_and_check_spaces] asks for the spaces one by one in the
    order of the parsed list, a name listed twice being loaded twice, and
    it issues no other call.  At the first load that raises it stops: the
    names after it are never asked for, the result is [False] and the
    message is the cannot-be-loaded one, whatever the exception was.  When
    every load answers, every name was asked for and the verdict (value or
    [IndexError], and message) is the one of
    [control_input_and_output_types] on the answers, in order. *)
Theorem load_and_check_spaces_loads_in_order :
  forall (env : oracle) (names : pystr) (s : state),
    let run := load_and_check_spaces env names s in
    let name_list := split_space_names names in
    exists t,
      trace (snd run) = trace s ++ t
      /\ map loaded_name t = map Some (firstn (List.length t) name_list)
      /\ ((exists t' name ex,
              t = t' ++ [Ev (Interface_load name) (Raised ex)]
              /\ forallb event_ok t' = true
              /\ fst run = Ok false
              /\ error_message (snd run) = Some msg_unloadable)
          \/ (exists interfaces,
                 forallb event_ok t = true
                 /\ List.length t = List.length name_list
                 /\ map loaded_interface t = map Some interfaces
                 /\ fst run = fst (control_input_and_output_types interfaces s)
                 /\ error_message (snd run)
                    = error_message
                        (snd (control_input_and_output_types interfaces s)))).
Proof. exact load_and_check_trace. Qed.

(** ** The steps of [create_space] *)

(** X5: [create_space] goes through its steps in the order create the
    repository, resolve the name, open, write, close, sleep, upload, and
    stops at the first step that raises: every call before the last one
    returned, and nothing is called after a failure (nothing is retried,
    nothing is undone).  If the last call returned, it is the upload, the
    result is [True] and [error_message] is untouched.  If it raised, the
    result and the message depend only on which step it is, not on the
    exception: the naming message for the creation of the repository, the
    file message for open, write and close, the upload message for the
    upload, each with [False], [url] untouched and the exception's text
    printed; for the name resolution, which has no handler, the exception
    itself, with both attributes untouched. *)
Theorem create_space_stops_at_first_failure :
  forall (env : oracle) (repr_list : list pystr -> pystr)
         (input_space_names target_space_name hf_token title description : pystr)
         (s : state),
    let run := create_space env repr_list input_space_names target_space_name
                            hf_token title description s in
    exists t' e,
      trace (snd run) = trace s ++ t' ++ [e]
      /\ forallb event_ok t' = true
      /\ map event_name (t' ++ [e])
         = firstn (S (List.length t')) creation_steps
      /\ match event_exn e with
         | None =>
             event_name e = c_upload_file
             /\ fst run = Ok true
             /\ error_message (snd run) = error_message s
             /\ stdout (snd run) = stdout s
         | Some ex =>
             match message_of_step (event_name e) with
             | Some m =>
                 fst run = Ok false
                 /\ error_message (snd run) = Some m
                 /\ url (snd run) = url s
                 /\ stdout (snd run) = stdout s ++ [exn_text ex]
             | None =>
                 fst run = Raised ex
                 /\ error_message (snd run) = error_message s
                 /\ url (snd run) = url s
                 /\ stdout (snd run) = stdout s
             end
         end.
Proof.
  intros env repr_list a c b d e s run.
  unfold run, create_space. run_monad. cbn [trace record].
  ask env; [|exists []; eexists; repeat split].
  ask env;
    [|eexists [_]; eexists; rewrite <- !app_assoc; repeat split].
  ask env;
    [|eexists [_; _]; eexists; rewrite <- !app_assoc; repeat split].
  ask env;
    [|eexists [_; _; _]; eexists; rewrite <- !app_assoc; repeat split].
  ask env;
    [|eexists [_; _; _; _]; eexists; rewrite <- !app_assoc; repeat split].
  ask env;
    eexists [_; _; _; _; _; _]; eexists; rewrite <- !app_assoc; repeat split.
Qed.

(** ** The calls of the availability check *)

(** X6: [check_space_name_availability] is read-only.  It resolves the
    name for the token; if that raises it stops there; otherwise it
    fetches the one page "https://huggingface.co/spaces/" followed by the
    resolved name, and that is all it calls.  It never changes [url], and
    it leaves [error_message] as it was when it returns [True]. *)
Theorem check_space_name_availability_calls :
  forall (env : oracle) (hf_token space_name : pystr) (s : state),
    let run := check_space_name_availability env hf_token space_name s in
    let resolution := get_full_repo_name space_name hf_token in
    url (snd run) = url s
    /\ ((exists ex, trace (snd run) = trace s ++ [Ev resolution (Raised ex)])
        \/ (exists repo_name answer,
               trace (snd run)
               = trace s
                 ++ [Ev resolution (Ok repo_name);
                     Ev (requests_get
                           (str "https://huggingface.co/spaces/" ++ repo_name))
                        answer]))
    /\ (fst run = Ok true -> error_message (snd run) = error_message s).
Proof.
  intros env hf_token space_name s run resolution.
  unfold run, resolution, check_space_name_availability. run_monad.
  cbn [trace record].
  ask env;
    [|split; [reflexivity|]; split; [left; eexists; reflexivity|];
      discriminate].
  ask env;
    [|rewrite <- app_assoc; split; [reflexivity|];
      split; [right; do 2 eexists; reflexivity|];
      discriminate].
  match goal with
  | |- context [N.eqb (status_code ?response) 200] =>
      destruct (N.eqb (status_code response) 200)
  end;
    cbn [trace record with_error with_url with_output url error_message
         stdout fst snd];
    rewrite <- app_assoc; (split; [reflexivity|]);
    (split; [right; do 2 eexists; reflexivity|]);
    intros; try discriminate; reflexivity.
Qed.

(** ** What a successful upload implies *)

Lemma check_true_trace (env : oracle) (hf_token space_name : pystr) (s : state) :
  let run := check_space_name_availability env hf_token space_name s in
  fst run = Ok true ->
  exists repo_name response,
    trace (snd run)
    = trace s ++ [Ev (get_full_repo_name space_name hf_token) (Ok repo_name);
                  Ev (requests_get (space_url repo_name)) (Ok response)]
    /\ status_code response <> 200%N.
Proof.
  intros run. unfold run, check_space_name_availability. run_monad.
  cbn [trace record].
  ask env; [|discriminate].
  ask env; [|discriminate].
  match goal with
  | |- context [N.eqb (status_code ?response) 200] =>
      destruct (N.eqb_spec (status_code response) 200)
  end;
    cbn [trace record with_error with_url with_output url error_message
         stdout fst snd]; [discriminate|].
  intros _. do 2 eexists. rewrite <- app_assoc. split; [reflexivity|assumption].
Qed.

Lemma control_true (l : list Interface) (s : state) :
  fst (control_input_and_output_types l s) = Ok true ->
  exists first rest, l = first :: rest /\ Forall (same_signature first) rest.
Proof.
  destruct l as [|first rest]; [discriminate|].
  intros H. exists first, rest. split; [reflexivity|].
  rewrite control_as_loop in H.
  destruct (first_mismatch first (first :: rest))
    as [Hall|(pre & d & post & E & Hpre & Hd)].
  - now inversion Hall.
  - rewrite E, control_at_first_mismatch in H by assumption. discriminate.
Qed.

Lemma no_upload_among {p : event -> bool} (t : list event) :
  (forall e, p e = true -> successful_upload e = false) ->
  forallb p t = true -> existsb successful_upload t = false.
Proof.
  intros Hp. induction t as [|e t IH]; [reflexivity|].
  cbn [forallb existsb]. rewrite andb_true_iff. intros [He Ht].
  now rewrite (Hp e He), IH.
Qed.

Lemma availability_call_no_upload (e : event) :
  availability_call e = true -> successful_upload e = false.
Proof. destruct e as [R c r]. destruct c; cbn; congruence. Qed.

Lemma loading_call_no_upload (e : event) :
  loading_call e = true -> successful_upload e = false.
Proof. destruct e as [R c r]. destruct c; cbn; congruence. Qed.

Lemma create_space_upload (env : oracle) (repr_list : list pystr -> pystr)
    (a c b d e : pystr) (s : state) :
  let run := create_space env repr_list a c b d e s in
  exists t,
    trace (snd run) = trace s ++ t
    /\ (fst run = Ok true \/ existsb successful_upload t = false).
Proof.
  intros run. unfold run, create_space. run_monad. cbn [trace record].
  ask env; [|eexists; split; [reflexivity|right; reflexivity]].
  do 5 (ask env;
    [|eexists; split; [rewrite <- !app_assoc; reflexivity|right; reflexivity]]).
  eexists; split; [rewrite <- !app_assoc; reflexivity|left; reflexivity].
Qed.

Lemma loads_no_upload (t : list event) (l : list pystr) :
  map loaded_name t = map Some l -> existsb successful_upload t = false.
Proof.
  revert l. induction t as [|e t IH]; intros l H; [reflexivity|].
  destruct l as [|n l]; [discriminate|]. cbn [map] in H.
  injection H as He Ht. cbn [existsb]. rewrite (IH l Ht), orb_false_r.
  destruct e as [R c r]. destruct c; cbn in *; congruence.
Qed.

(** X7: if a run of [build_space] contains an upload that went through,
    then every earlier step went through, and the run is exactly: the
    name resolution, the fetch of the page of the resolved name with a
    status other than 200, one load per parsed name in order, all
    answered, with answers that share the signature of the first, and
    then the seven steps of [create_space] ending with that upload.  The
    five fields were filled and the value returned is the URL of the name
    resolved inside [create_space]. *)
Theorem build_space_upload_implies_all_steps :
  forall (env : oracle) (repr_list : list pystr -> pystr)
         (space_names hf_token target_space_name interface_title
          interface_description : pystr) (s : state) (t : list event),
    let run := build_space env repr_list space_names hf_token target_space_name
                           interface_title interface_description s in
    trace (snd run) = trace s ++ t ->
    existsb successful_upload t = true ->
    exists repo_probed response tl interfaces v repo_name f n file_url,
      t = [Ev (get_full_repo_name target_space_name hf_token) (Ok repo_probed);
           Ev (requests_get (space_url repo_probed)) (Ok response)]
          ++ tl
          ++ creation_trace repr_list space_names target_space_name hf_token
               interface_title interface_description v repo_name f n file_url
      /\ status_code response <> 200%N
      /\ map loaded_name tl = map Some (split_space_names space_names)
      /\ map loaded_interface tl = map Some interfaces
      /\ (exists first rest,
             interfaces = first :: rest /\ Forall (same_signature first) rest)
      /\ blank space_names || blank hf_token || blank target_space_name
         || blank interface_title || blank interface_description = false
      /\ fst run = Ok (Some (space_url repo_name)).
Proof.
  intros env repr_list a b c d e s t run Ht Hup. subst run.
  destruct (blank a || blank b || blank c || blank d || blank e) eqn:G.
  { rewrite build_space_not_filled in Ht by exact G. cbn [snd] in Ht.
    rewrite <- (app_nil_r (trace s)) in Ht at 1.
    apply app_inv_head in Ht. subst t. discriminate. }
  pose proof G as G'. rewrite !orb_false_iff in G'.
  destruct G' as ((((Ha & Hb) & Hc) & Hd) & He).
  rewrite build_space_filled in Ht |- * by (repeat split; assumption).
  destruct (check_cases env b c s) as (t1 & Ht1 & _ & Hc1 & _ & Hm1).
  pose proof (check_true_trace env b c s) as Htrue. cbv zeta in Htrue.
  destruct (check_space_name_availability env b c s) as [[[|]|ex1] s1];
    cbn [fst snd] in *; [| |contradiction].
  2:{ rewrite Ht1 in Ht. apply app_inv_head in Ht. subst t.
      rewrite (no_upload_among _ availability_call_no_upload Hc1) in Hup.
      discriminate. }
  destruct (Htrue eq_refl) as (repo_probed & response & Hs1 & Hst).
  clear Htrue Ht1 Hc1 Hm1 t1.
  destruct (load_and_check_trace env a s1) as (tl & Htl & Hn & Hcase).
  cbv zeta in *.
  assert (Hno : existsb successful_upload tl = false)
    by (eapply loads_no_upload; exact Hn).
  destruct (load_and_check_spaces env a s1) as [[[|]|ex2] s2];
    cbn [fst snd] in *.
  2,3: rewrite Htl, Hs1, <- app_assoc in Ht; apply app_inv_head in Ht;
       subst t; rewrite existsb_app, Hno in Hup; discriminate.
  destruct Hcase as [(t' & name & ex & _ & _ & Hf & _)|
                     (interfaces & _ & Hlen & Hi & Hv & _)]; [discriminate|].
  symmetry in Hv. apply control_true in Hv.
  rewrite Hlen, firstn_all in Hn.
  destruct (create_space_cases env repr_list a c b d e s2)
    as (t3 & Ht3 & _ & _ & Hm3).
  destruct (create_space_upload env repr_list a c b d e s2)
    as (t3' & Ht3' & Hup3).
  cbv zeta in *. rewrite Ht3 in Ht3'. apply app_inv_head in Ht3'. subst t3'.
  destruct (create_space env repr_list a c b d e s2) as [[[|]|ex3] s3];
    cbn [fst snd] in *;
    rewrite Ht3, Htl, Hs1, <- !app_assoc in Ht; apply app_inv_head in Ht;
    subst t.
  - destruct Hm3 as (v & repo_name & f & n & file_url & -> & Hu & _).
    exists repo_probed, response, tl, interfaces, v, repo_name, f, n, file_url.
    rewrite Hu. repeat split; assumption.
  - destruct Hup3 as [Hup3|Hup3]; [discriminate|].
    rewrite !existsb_app, Hno, Hup3 in Hup. discriminate.
  - destruct Hup3 as [Hup3|Hup3]; [discriminate|].
    rewrite !existsb_app, Hno, Hup3 in Hup. discriminate.
Qed.

(** X7 in the world where every call succeeds. *)
Lemma build_space_upload_friendly :
  let names := str "spaces/a" ++ [newline] ++ str "spaces/b" in
  let run := build_space friendly simple_repr names (str "tok") (str "tgt")
                         (str "T") (str "D") initial in
  exists repo_probed response tl interfaces v repo_name f n file_url,
    trace (snd run)
    = [Ev (get_full_repo_name (str "tgt") (str "tok")) (Ok repo_probed);
       Ev (requests_get (space_url repo_probed)) (Ok response)]
      ++ tl
      ++ creation_trace simple_repr names (str "tgt") (str "tok")
           (str "T") (str "D") v repo_name f n file_url
    /\ status_code response <> 200%N
    /\ map loaded_name tl = map Some (split_space_names names)
    /\ map loaded_interface tl = map Some interfaces
    /\ (exists first rest,
           interfaces = first :: rest /\ Forall (same_signature first) rest)
    /\ blank names || blank (str "tok") || blank (str "tgt")
       || blank (str "T") || blank (str "D") = false
    /\ fst run = Ok (Some (space_url repo_name)).
Proof.
  intros names run.
  apply (build_space_upload_implies_all_steps friendly simple_repr names
           (str "tok") (str "tgt") (str "T") (str "D") initial
           (trace (snd run))); reflexivity.
Defined.

(** ** Attributes left over from earlier runs *)

Section Leftovers.

Variable env : oracle.
Variable repr_list : list pystr -> pystr.
Variables s s' : state.
Hypothesis same_history : trace s = trace s'.

Lemma check_agree (hf_token space_name : pystr) :
  let run := check_space_name_availability env hf_token space_name s in
  let run' := check_space_name_availability env hf_token space_name s' in
  fst run = fst run'
  /\ trace (snd run) = trace (snd run')
  /\ (fst run = Ok false -> error_message (snd run) = error_message (snd run')).
Proof.
  intros run run'. unfold run, run', check_space_name_availability.
  run_monad. cbn [trace record]. rewrite <- same_history.
  do 2 (ask env; rewrite <- ?same_history;
        [|repeat split; intros; rewrite <- ?same_history; reflexivity]).
  match goal with
  | |- context [N.eqb (status_code ?response) 200] =>
      destruct (N.eqb (status_code response) 200)
  end;
    cbn [trace record with_error with_url with_output url error_message
         stdout fst snd];
    repeat split; intros; try discriminate; rewrite <- ?same_history;
    reflexivity.
Qed.

Lemma create_agree (a c b d e : pystr) :
  let run := create_space env repr_list a c b d e s in
  let run' := create_space env repr_list a c b d e s' in
  fst run = fst run'
  /\ trace (snd run) = trace (snd run')
  /\ (fst run = Ok false -> error_message (snd run) = error_message (snd run'))
  /\ (fst run = Ok true -> url (snd run) = url (snd run')).
Proof.
  intros run run'. unfold run, run', create_space.
  run_monad. cbn [trace record]. rewrite <- same_history.
  do 6 (ask env; rewrite <- ?same_history;
        [|repeat split; intros; try discriminate; rewrite <- ?same_history;
    reflexivity]).
  repeat split; intros; try discriminate; rewrite <- ?same_history;
    reflexivity.
Qed.

End Leftovers.

Section LeftoversLoading.

Variable env : oracle.

Let load_all := comprehension (fun name => perform env (Interface_load name)).

Lemma load_all_agree (name_list : list pystr) (s s' : state) :
  trace s = trace s' ->
  fst (load_all name_list s) = fst (load_all name_list s')
  /\ trace (snd (load_all name_list s)) = trace (snd (load_all name_list s')).
Proof.
  revert s s'. induction name_list as [|name l IH]; intros s s' H.
  - split; [reflexivity|exact H].
  - unfold load_all in *. cbn [comprehension]. run_monad. rewrite <- H.
    destruct (@env Interface (trace s) (Interface_load name)) as [i|ex].
    + destruct (IH (record (Ev (Interface_load name) (Ok i)) s)
                   (record (Ev (Interface_load name) (Ok i)) s'))
        as [H1 H2]; [cbn [record trace]; now rewrite H|].
      destruct (comprehension _ l (record _ s)) as [[loaded|ex1] s1];
        destruct (comprehension _ l (record _ s')) as [[loaded'|ex1'] s1'];
        cbn [fst snd] in *; try discriminate;
        injection H1 as ->; split; auto.
    + cbn [fst snd record trace]. now rewrite H.
Qed.

Lemma load_agree (names : pystr) (s s' : state) :
  trace s = trace s' ->
  let run := load_and_check_spaces env names s in
  let run' := load_and_check_spaces env names s' in
  fst run = fst run'
  /\ trace (snd run) = trace (snd run')
  /\ (fst run = Ok false -> error_message (snd run) = error_message (snd run')).
Proof.
  intros H run run'. unfold run, run', load_and_check_spaces. run_monad.
  destruct (load_all_agree (split_space_names names) s s' H) as [H1 H2].
  unfold load_all in *.
  destruct (comprehension _ (split_space_names names) s) as [[loaded|ex1] s1];
    destruct (comprehension _ (split_space_names names) s') as [[loaded'|ex1'] s1'];
    cbn [fst snd] in *; try discriminate; injection H1 as ->.
  - destruct loaded' as [|first rest].
    + cbn. repeat split; [exact H2|discriminate].
    + assert (Hne : first :: rest <> []) by discriminate.
      rewrite (control_replay (first :: rest) s1),
              (control_replay (first :: rest) s1').
      destruct (control_cases initial Hne) as [E|[E|E]]; rewrite E;
        cbn [replay fst snd error_message negb with_error with_output trace
             initial];
        repeat split; intros; try discriminate; auto.
  - cbn [fst snd with_error with_output trace error_message].
    repeat split; auto.
Qed.

End LeftoversLoading.

(** X8: what [build_space] returns, and the calls it makes, do not depend
    on the values that [error_message] and [url] hold from earlier runs,
    nor on what was printed before: from two states with the same history
    of calls it returns the same value (or raises the same exception)
    after the same calls. *)
Theorem build_space_ignores_old_attributes :
  forall (env : oracle) (repr_list : list pystr -> pystr)
         (space_names hf_token target_space_name interface_title
          interface_description : pystr) (s s' : state),
    trace s = trace s' ->
    let run := build_space env repr_list space_names hf_token target_space_name
                           interface_title interface_description s in
    let run' := build_space env repr_list space_names hf_token target_space_name
                            interface_title interface_description s' in
    fst run = fst run' /\ trace (snd run) = trace (snd run').
Proof.
  intros env repr_list a b c d e s s' H run run'. subst run run'.
  destruct (blank a || blank b || blank c || blank d || blank e) eqn:G.
  { rewrite !build_space_not_filled by exact G. now split. }
  rewrite !orb_false_iff in G. destruct G as ((((Ha & Hb) & Hc) & Hd) & He).
  rewrite !build_space_filled by (repeat split; assumption).
  destruct (check_agree env s s' H b c) as (H1 & H1t & H1e). cbv zeta in *.
  destruct (check_space_name_availability env b c s) as [[[|]|ex1] s1];
    destruct (check_space_name_availability env b c s') as [[[|]|ex1'] s1'];
    cbn [fst snd] in *; try discriminate;
    [|split; [now rewrite H1e|exact H1t]|split; [congruence|exact H1t]].
  destruct (load_agree env a s1 s1' H1t) as (H2 & H2t & H2e). cbv zeta in *.
  destruct (load_and_check_spaces env a s1) as [[[|]|ex2] s2];
    destruct (load_and_check_spaces env a s1') as [[[|]|ex2'] s2'];
    cbn [fst snd] in *; try discriminate;
    [|split; [now rewrite H2e|exact H2t]|split; [congruence|exact H2t]].
  destruct (create_agree env repr_list s2 s2' H2t a c b d e)
    as (H3 & H3t & H3e & H3u). cbv zeta in *.
  destruct (create_space env repr_list a c b d e s2) as [[[|]|ex3] s3];
    destruct (create_space env repr_list a c b d e s2') as [[[|]|ex3'] s3'];
    cbn [fst snd] in *; try discriminate.
  - split; [now rewrite H3u|exact H3t].
  - split; [now rewrite H3e|exact H3t].
  - split; [congruence|exact H3t].
Qed.

(** X8 from a fresh class and from one that holds the message and the URL
    of earlier runs. *)
Lemma build_space_ignores_old_attributes_friendly :
  let s' := mkState (Some msg_upload) (Some (space_url (str "user/old")))
                    [] [str "earlier output"] in
  let run := build_space friendly simple_repr (str "spaces/a") (str "tok")
                         (str "tgt") (str "T") (str "D") initial in
  let run' := build_space friendly simple_repr (str "spaces/a") (str "tok")
                          (str "tgt") (str "T") (str "D") s' in
  fst run = fst run' /\ trace (snd run) = trace (snd run').
Proof.
  intros s'.
  apply (build_space_ignores_old_attributes friendly simple_repr
           (str "spaces/a") (str "tok") (str "tgt") (str "T") (str "D")
           initial s').
  reflexivity.
Defined.

Lemma recorded_by_availability_some (m : option pystr) :
  recorded_by_availability m -> m <> None.
Proof. intros [->|[->|[repo ->]]]; discriminate. Qed.

(** X9: no run of [build_space] resets an attribute: a message recorded
    by an earlier run is still there (or replaced by a newer one) after
    any later run, successful or not, and so is a URL.  A run assigns at
    most one of the two attributes: when it changes [url] the old
    [error_message] stays, and when it changes [error_message] the old
    [url] stays. *)
Theorem build_space_never_clears_attributes :
  forall (env : oracle) (repr_list : list pystr -> pystr)
         (space_names hf_token target_space_name interface_title
          interface_description : pystr) (s : state),
    let run := build_space env repr_list space_names hf_token target_space_name
                           interface_title interface_description s in
    (error_message s <> None -> error_message (snd run) <> None)
    /\ (url s <> None -> url (snd run) <> None)
    /\ (url (snd run) = url s \/ error_message (snd run) = error_message s).
Proof.
  intros env repr_list a b c d e s run. subst run.
  destruct (blank a || blank b || blank c || blank d || blank e) eqn:G.
  { rewrite build_space_not_filled by exact G. cbn [snd]. auto. }
  rewrite !orb_false_iff in G. destruct G as ((((Ha & Hb) & Hc) & Hd) & He).
  rewrite build_space_filled by (repeat split; assumption).
  destruct (check_cases env b c s) as (t1 & _ & _ & _ & Hu1 & Hm1).
  destruct (check_space_name_availability env b c s) as [[[|]|ex1] s1];
    cbn [fst snd] in *; [| |contradiction].
  2:{ apply recorded_by_availability_some in Hm1. rewrite Hu1. auto. }
  destruct (load_and_check_cases env a s1 (split_space_names_not_nil a Ha))
    as (t2 & _ & _ & _ & Hu2 & Hm2).
  destruct (load_and_check_spaces env a s1) as [[[|]|ex2] s2];
    cbn [fst snd] in *; [| |contradiction].
  2:{ rewrite Hu2, Hu1. split; [|auto].
      intros _. destruct Hm2 as [H|[H|H]]; rewrite H; discriminate. }
  destruct (create_space_cases env repr_list a c b d e s2)
    as (t3 & _ & _ & _ & Hm3).
  destruct (create_space env repr_list a c b d e s2) as [[[|]|ex3] s3];
    cbn [fst snd] in *.
  - destruct Hm3 as (v & repo_name & f & n & file_url & _ & Hu3 & He3).
    rewrite Hu3, He3, Hm2, Hm1. repeat split; auto. discriminate.
  - destruct Hm3 as (Hu3 & He3). rewrite Hu3, Hu2, Hu1. split; [|auto].
    intros _. destruct He3 as [H|[H|H]]; rewrite H; discriminate.
  - destruct Hm3 as (Hu3 & He3 & _). rewrite Hu3, He3, Hu2, Hu1, Hm2, Hm1. auto.
Qed.

(** ** When [build_space] raises *)

(** X10: the only exception that [build_space] lets through is the one of
    the name resolution inside [create_space]: if a run raises, its last
    two calls are a creation of the repository that succeeded and the
    name resolution that raised that very exception; the repository
    exists, and no message was recorded by [create_space]. *)
Theorem build_space_raises_only_from_resolution :
  forall (env : oracle) (repr_list : list pystr -> pystr)
         (space_names hf_token target_space_name interface_title
          interface_description : pystr) (s : state) (ex : exn),
    let run := build_space env repr_list space_names hf_token target_space_name
                           interface_title interface_description s in
    fst run = Raised ex ->
    exists t v,
      trace (snd run)
      = trace s ++ t
        ++ [Ev (create_repo target_space_name hf_token (str "space")
                            (str "gradio")) (Ok v);
            Ev (get_full_repo_name target_space_name hf_token) (Raised ex)]
      /\ error_message (snd run) = error_message s
      /\ url (snd run) = url s.
Proof.
  intros env repr_list a b c d e s ex run. subst run.
  destruct (blank a || blank b || blank c || blank d || blank e) eqn:G.
  { rewrite build_space_not_filled by exact G. discriminate. }
  rewrite !orb_false_iff in G. destruct G as ((((Ha & Hb) & Hc) & Hd) & He).
  rewrite build_space_filled by (repeat split; assumption).
  destruct (check_cases env b c s) as (t1 & Ht1 & _ & _ & Hu1 & Hm1).
  destruct (check_space_name_availability env b c s) as [[[|]|ex1] s1];
    cbn [fst snd] in *; [|discriminate|contradiction].
  destruct (load_and_check_cases env a s1 (split_space_names_not_nil a Ha))
    as (t2 & Ht2 & _ & _ & Hu2 & Hm2).
  destruct (load_and_check_spaces env a s1) as [[[|]|ex2] s2];
    cbn [fst snd] in *; [|discriminate|contradiction].
  destruct (create_space_cases env repr_list a c b d e s2)
    as (t3 & Ht3 & _ & _ & Hm3).
  destruct (create_space env repr_list a c b d e s2) as [[[|]|ex3] s3];
    cbn [fst snd] in *; try discriminate.
  intros Hex. injection Hex as ->.
  destruct Hm3 as (Hu3 & He3 & v & ->).
  exists (t1 ++ t2), v.
  rewrite Ht3, Ht2, Ht1, <- !app_assoc, Hu3, He3, Hu2, Hu1, Hm2, Hm1.
  repeat split.
Qed.

(** X10 in the world where the second resolution fails. *)
Lemma build_space_raises_when_resolution_fails_later :
  let run := build_space resolution_fails_later simple_repr (str "spaces/a")
                         (str "tok") (str "tgt") (str "T") (str "D") initial in
  exists t v,
    trace (snd run)
    = trace initial ++ t
      ++ [Ev (create_repo (str "tgt") (str "tok") (str "space") (str "gradio"))
             (Ok v);
          Ev (get_full_repo_name (str "tgt") (str "tok"))
             (Raised (OSError "connection reset"))]
    /\ error_message (snd run) = error_message initial
    /\ url (snd run) = url initial.
Proof.
  apply (@build_space_raises_only_from_resolution resolution_fails_later
           simple_repr (str "spaces/a") (str "tok") (str "tgt") (str "T")
           (str "D") initial (OSError "connection reset")).
  reflexivity.
Defined.

(** ** The checker and the order of the descriptors *)

Lemma same_signature_trans (a b c : Interface) :
  same_signature a b -> same_signature a c -> same_signature b c.
Proof.
  unfold same_signature, same_inputs, same_outputs.
  intros [H1 H2] [H3 H4]. split; congruence.
Qed.

Lemma control_all_true (first : Interface) (rest : list Interface) (s : state) :
  Forall (same_signature first) rest ->
  control_input_and_output_types (first :: rest) s = (Ok true, s).
Proof.
  intros H. rewrite control_as_loop. apply control_loop_all.
  constructor; [split; reflexivity|exact H].
Qed.

Lemma control_true_permuted (l l' : list Interface) (s : state) :
  Permutation l l' ->
  fst (control_input_and_output_types l s) = Ok true ->
  fst (control_input_and_output_types l' s) = Ok true.
Proof.
  intros HP H. apply control_true in H. destruct H as (first & rest & -> & Hall).
  destruct l' as [|first' rest'].
  - apply Permutation_sym, Permutation_nil in HP. discriminate.
  - assert (Hin : forall d, In d (first' :: rest') -> same_signature first d).
    { intros d Hd. apply (Permutation_in _ (Permutation_sym HP)) in Hd.
      destruct Hd as [<-|Hd]; [split; reflexivity|].
      rewrite Forall_forall in Hall. now apply Hall. }
    rewrite control_all_true; [reflexivity|].
    apply Forall_forall. intros d Hd.
    apply (same_signature_trans (a:=first));
      apply Hin; [now left|now right].
Qed.

(** X11: whether a list of descriptors is accepted does not depend on the
    order in which they are listed: on two lists that are permutations of
    one another [control_input_and_output_types] returns the same value
    (or raises the same [IndexError], on the empty list).  Only the
    message of a refusal can depend on the order. *)
Theorem control_order_irrelevant :
  forall (l l' : list Interface) (s : state),
    Permutation l l' ->
    fst (control_input_and_output_types l s)
    = fst (control_input_and_output_types l' s).
Proof.
  intros l l' s HP.
  destruct l as [|d l0].
  { apply Permutation_nil in HP. now subst l'. }
  destruct l' as [|d' l0'].
  { apply Permutation_sym, Permutation_nil in HP. discriminate. }
  assert (Hne : d :: l0 <> []) by discriminate.
  assert (Hne' : d' :: l0' <> []) by discriminate.
  pose proof (control_true_permuted s HP) as H1.
  pose proof (control_true_permuted s (Permutation_sym HP)) as H2.
  destruct (control_cases s Hne) as [E|[E|E]];
    destruct (control_cases s Hne') as [E'|[E'|E']];
    rewrite E, E' in *; cbn [fst] in *; try reflexivity.
  all: try (symmetry; now apply H1).
  all: now apply H2.
Qed.

(** X11 on a text-to-text and an image-to-image descriptor, in both
    orders. *)
Lemma control_order_irrelevant_swap :
  fst (control_input_and_output_types [text_to_text; image_to_image] initial)
  = fst (control_input_and_output_types [image_to_image; text_to_text] initial).
Proof.
  apply (@control_order_irrelevant
           [text_to_text; image_to_image] [image_to_image; text_to_text] initial).
  apply perm_swap.
Defined.

(** ** The checker reads classes only *)

Lemma control_loop_classes (fi fo : list pytype) (l l' : list Interface)
    (s : state) :
  map input_types l = map input_types l' ->
  map output_types l = map output_types l' ->
  control_loop fi fo l s = control_loop fi fo l' s.
Proof.
  revert l'. induction l as [|d l IH]; intros [|d' l'] Hi Ho;
    try discriminate; [reflexivity|].
  cbn [map] in Hi, Ho. injection Hi as Hd Hi. injection Ho as Hd' Ho.
  cbn [control_loop]. fold (input_types d) (output_types d)
    (input_types d') (output_types d').
  rewrite Hd, Hd'. unfold np_all.
  destruct (types_eqb (input_types d') fi); [|reflexivity].
  destruct (types_eqb (output_types d') fo); [|reflexivity].
  exact (IH l' Hi Ho).
Qed.

(** X12: the checker looks at the class of each component and at nothing
    else of it: two lists of descriptors whose components have the same
    classes at the same places get the same verdict and the same message,
    whatever the components otherwise hold. *)
Theorem control_reads_only_classes :
  forall (l l' : list Interface) (s : state),
    map input_types l = map input_types l' ->
    map output_types l = map output_types l' ->
    control_input_and_output_types l s = control_input_and_output_types l' s.
Proof.
  intros [|d l] [|d' l'] s Hi Ho; try discriminate; [reflexivity|].
  rewrite !control_as_loop.
  rewrite (control_loop_classes _ _ _ _ s Hi Ho).
  cbn [map] in Hi, Ho. injection Hi as -> _. injection Ho as -> _.
  reflexivity.
Qed.

(** X12 on two descriptors that differ in their labels only. *)
Lemma control_reads_only_classes_labels :
  control_input_and_output_types
    [text_to_text; mkInterface [Component 1%N (str "prompt")]
                               [Component 1%N (str "answer")]] initial
  = control_input_and_output_types [text_to_text; text_to_text] initial.
Proof.
  apply (@control_reads_only_classes
           [text_to_text; mkInterface [Component 1%N (str "prompt")]
                                      [Component 1%N (str "answer")]]
           [text_to_text; text_to_text] initial); reflexivity.
Defined.

(** ** The generated file *)

Definition no_newline (l : pystr) : bool :=
  forallb (fun c => negb (N.eqb c newline)) l.

Lemma no_newline_spec (l : pystr) : no_newline l = true <-> ~ In newline l.
Proof.
  unfold no_newline. induction l as [|c l IH]; cbn [forallb In].
  - tauto.
  - rewrite andb_true_iff, IH, negb_true_iff, N.eqb_neq. intuition congruence.
Qed.

Lemma no_newline_app (a b : pystr) :
  no_newline (a ++ b) = no_newline a && no_newline b.
Proof. apply forallb_app. Qed.

(** X13: when the rendered list, the title and the description hold no
    newline, the generated file is exactly four lines: the import, the
    assignment of the rendered list to [name_list], the comprehension that
    loads the interfaces, and the launch of [gr.mix.Parallel] with the
    title and the description between double quotes, copied as they are
    (nothing in them is escaped). *)
Theorem file_as_a_string_lines :
  forall (repr_list : list pystr -> pystr) (name_list : list pystr)
         (title description : pystr),
    ~ In newline (repr_list name_list) ->
    ~ In newline title ->
    ~ In newline description ->
    split_newline (file_as_a_string repr_list name_list title description)
    = [str "import gradio as gr";
       str "name_list = " ++ repr_list name_list;
       str "interfaces = [gr.Interface.load(name) for name in name_list]";
       str "gr.mix.Parallel(*interfaces, title=" ++ [34%N] ++ title ++ [34%N]
       ++ str ", description=" ++ [34%N] ++ description ++ [34%N]
       ++ str ").launch()"].
Proof.
  intros repr_list name_list title description Hr Ht Hd.
  apply no_newline_spec in Hr, Ht, Hd.
  match goal with
  | |- _ = ?lines =>
      replace (file_as_a_string repr_list name_list title description)
        with (join_newline lines)
  end.
  - apply split_join; [discriminate|].
    repeat apply Forall_cons; try apply Forall_nil;
      apply no_newline_spec;
      rewrite ?no_newline_app, ?Hr, ?Ht, ?Hd; reflexivity.
  - unfold file_as_a_string. cbn [join_newline].
    rewrite <- !app_assoc. reflexivity.
Qed.

(** X13 with the rendering of the scenarios. *)
Lemma file_as_a_string_lines_simple :
  split_newline (file_as_a_string simple_repr [str "spaces/a"] (str "T")
                                  (str "D"))
  = [str "import gradio as gr";
     str "name_list = " ++ simple_repr [str "spaces/a"];
     str "interfaces = [gr.Interface.load(name) for name in name_list]";
     str "gr.mix.Parallel(*interfaces, title=" ++ [34%N] ++ str "T" ++ [34%N]
     ++ str ", description=" ++ [34%N] ++ str "D" ++ [34%N]
     ++ str ").launch()"].
Proof.
  apply (@file_as_a_string_lines simple_repr [str "spaces/a"] (str "T")
           (str "D")); vm_compute; intuition discriminate.
Defined.

(** ** Creation comes after the checks *)

Lemma no_creation_among {p : event -> bool} (t : list event) :
  (forall e, p e = true -> repository_creation e = false) ->
  forallb p t = true -> existsb repository_creation t = false.
Proof.
  intros Hp. induction t as [|e t IH]; [reflexivity|].
  cbn [forallb existsb]. rewrite andb_true_iff. intros [He Ht].
  now rewrite (Hp e He), IH.
Qed.

Lemma availability_call_no_creation (e : event) :
  availability_call e = true -> repository_creation e = false.
Proof. destruct e as [R c r]. destruct c; cbn; congruence. Qed.

Lemma loads_no_creation (t : list event) (l : list pystr) :
  map loaded_name t = map Some l -> existsb repository_creation t = false.
Proof.
  revert l. induction t as [|e t IH]; intros l H; [reflexivity|].
  destruct l as [|n l]; [discriminate|]. cbn [map] in H.
  injection H as He Ht. cbn [existsb]. rewrite (IH l Ht), orb_false_r.
  destruct e as [R c r]. destruct c; cbn in *; congruence.
Qed.

Lemma create_space_starts_with_creation
    (env : oracle) (repr_list : list pystr -> pystr)
    (a c b d e : pystr) (s : state) :
  exists answer t,
    trace (snd (create_space env repr_list a c b d e s))
    = trace s ++ Ev (create_repo c b (str "space") (str "gradio")) answer :: t.
Proof.
  unfold create_space. run_monad. cbn [trace record].
  do 6 (ask env; [|do 2 eexists; rewrite <- ?app_assoc; reflexivity]).
  do 2 eexists; rewrite <- ?app_assoc; reflexivity.
Qed.

(** X14: [build_space] asks for the repository to be created only after
    both checks passed: if a run contains a [create_repo] call, then
    before it the name was resolved and its page fetched with a status
    other than 200, and every parsed name was loaded, in order, with
    answers that share the signature of the first.  So a taken name, an
    unloadable space or a mismatch of signatures never leaves a
    repository behind. *)
Theorem build_space_creates_only_after_checks :
  forall (env : oracle) (repr_list : list pystr -> pystr)
         (space_names hf_token target_space_name interface_title
          interface_description : pystr) (s : state) (t : list event),
    let run := build_space env repr_list space_names hf_token target_space_name
                           interface_title interface_description s in
    trace (snd run) = trace s ++ t ->
    existsb repository_creation t = true ->
    exists repo_probed response tl interfaces answer t3,
      t = [Ev (get_full_repo_name target_space_name hf_token) (Ok repo_probed);
           Ev (requests_get (space_url repo_probed)) (Ok response)]
          ++ tl
          ++ Ev (create_repo target_space_name hf_token (str "space")
                             (str "gradio")) answer :: t3
      /\ status_code response <> 200%N
      /\ map loaded_name tl = map Some (split_space_names space_names)
      /\ map loaded_interface tl = map Some interfaces
      /\ (exists first rest,
             interfaces = first :: rest /\ Forall (same_signature first) rest).
Proof.
  intros env repr_list a b c d e s t run Ht Hcr. subst run.
  destruct (blank a || blank b || blank c || blank d || blank e) eqn:G.
  { rewrite build_space_not_filled in Ht by exact G. cbn [snd] in Ht.
    rewrite <- (app_nil_r (trace s)) in Ht at 1.
    apply app_inv_head in Ht. subst t. discriminate. }
  rewrite !orb_false_iff in G. destruct G as ((((Ha & Hb) & Hc) & Hd) & He).
  rewrite build_space_filled in Ht by (repeat split; assumption).
  destruct (check_cases env b c s) as (t1 & Ht1 & _ & Hc1 & _ & Hm1).
  pose proof (check_true_trace env b c s) as Htrue. cbv zeta in Htrue.
  destruct (check_space_name_availability env b c s) as [[[|]|ex1] s1];
    cbn [fst snd] in *; [| |contradiction].
  2:{ rewrite Ht1 in Ht. apply app_inv_head in Ht. subst t.
      rewrite (no_creation_among _ availability_call_no_creation Hc1) in Hcr.
      discriminate. }
  destruct (Htrue eq_refl) as (repo_probed & response & Hs1 & Hst).
  clear Htrue Ht1 Hc1 Hm1 t1.
  destruct (load_and_check_trace env a s1) as (tl & Htl & Hn & Hcase).
  cbv zeta in *.
  assert (Hno : existsb repository_creation tl = false)
    by (eapply loads_no_creation; exact Hn).
  destruct (load_and_check_spaces env a s1) as [[[|]|ex2] s2];
    cbn [fst snd] in *.
  2,3: rewrite Htl, Hs1, <- app_assoc in Ht; apply app_inv_head in Ht;
       subst t; rewrite existsb_app, Hno in Hcr; discriminate.
  destruct Hcase as [(t' & name & ex & _ & _ & Hf & _)|
                     (interfaces & _ & Hlen & Hi & Hv & _)]; [discriminate|].
  symmetry in Hv. apply control_true in Hv.
  rewrite Hlen, firstn_all in Hn.
  destruct (create_space_starts_with_creation env repr_list a c b d e s2)
    as (answer & t3 & Ht3).
  destruct (create_space env repr_list a c b d e s2) as [[[|]|ex3] s3];
    cbn [fst snd] in *;
    rewrite Ht3, Htl, Hs1, <- !app_assoc in Ht; apply app_inv_head in Ht;
    subst t;
    exists repo_probed, response, tl, interfaces, answer, t3;
    repeat split; assumption.
Qed.

(** X14 in the world where the write to the file fails: the repository was
    asked for, after both checks. *)
Lemma build_space_creates_only_after_checks_write_fails :
  let names := str "spaces/a" ++ [newline] ++ str "spaces/b" in
  let run := build_space write_fails simple_repr names (str "tok") (str "tgt")
                         (str "T") (str "D") initial in
  exists repo_probed response tl interfaces answer t3,
    trace (snd run)
    = [Ev (get_full_repo_name (str "tgt") (str "tok")) (Ok repo_probed);
       Ev (requests_get (space_url repo_probed)) (Ok response)]
      ++ tl
      ++ Ev (create_repo (str "tgt") (str "tok") (str "space") (str "gradio"))
            answer :: t3
    /\ status_code response <> 200%N
    /\ map loaded_name tl = map Some (split_space_names names)
    /\ map loaded_interface tl = map Some interfaces
    /\ (exists first rest,
           interfaces = first :: rest /\ Forall (same_signature first) rest).
Proof.
  intros names run.
  apply (@build_space_creates_only_after_checks write_fails simple_repr names
           (str "tok") (str "tgt") (str "T") (str "D") initial
           (trace (snd run))); reflexivity.
Defined.
